(** * Book Hub: the data and query layer of [hub/core]

    A shallow embedding of [hub/core/models.py], [hub/core/forms.py] and
    [hub/core/views.py].  The relational store is a record of finite maps
    from primary keys to rows; every request handler is a function from a
    request and a store to a response and a store.

    Conventions of the embedding:
    - primary keys, years and timestamps are [Z];
    - a text is a [string] of the characters with a code point below 256,
      one [ascii] each;
    - the store is the SQLite store of a default project: the key of a new
      row is above every key its table has given out, a query without
      [ORDER BY] yields its rows in the order of their keys, and numbers are
      compared as binary64 floats;
    - in [average_rating] the value of the SQL aggregate [AVG] and of
      Python's [round] is an exact rational [Q] (the source computes them
      on binary floats); in [highly_rated], where the store compares the
      aggregate with a parameter, both are rounded to the nearest float;
    - the clock is read by the request: [now] is its first reading and
      [now_again] its second;
    - a Python falsy test [if x] is written out for the type at hand
      ([None], [0.0], the empty string);
    - an exception that no handler catches is the response [ServerError];
      the store is then as the last completed write left it;
    - templates and flash messages ([messages.success]) are not part of the
      store and are left out. *)

From Stdlib Require Import ZArith QArith Qabs Qpower Lia Lqa Ascii.
From stdpp Require Import gmap strings pretty list sorting.

Local Open Scope Z_scope.

(** ** Rows ([models.py]) *)

(** [class Author(models.Model)] *)
Record Author := mkAuthor {
  author_name : string;
  author_bio : string;
  author_birth_date : option (Z * Z * Z)
}.

(** [class Book(models.Model)]; [book_author] is the foreign key. *)
Record Book := mkBook {
  book_title : string;
  book_author : Z;
  book_isbn : string;
  book_publication_year : Z;
  book_description : string;
  book_cover_image : option string;
  book_created_at : Z;
  book_updated_at : Z
}.

(** [class Review(models.Model)]; [review_book] and [review_user] are the
    foreign keys. *)
Record Review := mkReview {
  review_book : Z;
  review_user : Z;
  review_rating : Z;
  review_text : string;
  review_created_at : Z;
  review_updated_at : Z
}.

(** [class ReadingList(models.Model)]; [rl_books] is the many-to-many
    relation, the set of the book keys linked to the list. *)
Record ReadingList := mkReadingList {
  rl_name : string;
  rl_user : Z;
  rl_books : gset Z;
  rl_description : string;
  rl_is_public : bool;
  rl_created_at : Z
}.

(** The store: one table per model, the keys of [auth.User], and for
    every model the largest key that its table has given out so far (the
    key column is [AUTOINCREMENT]). *)
Record DB := mkDB {
  tbl_user : gset Z;
  tbl_author : gmap Z Author;
  tbl_book : gmap Z Book;
  tbl_review : gmap Z Review;
  tbl_reading_list : gmap Z ReadingList;
  key_seq : gmap string Z
}.

Definition empty_db : DB := mkDB ∅ ∅ ∅ ∅ ∅ ∅.

(** The rows of a table in the order of their keys: the order of a query
    that has no [ORDER BY]. *)
Definition by_key {A} (x y : Z * A) : Prop := x.1 <= y.1.

#[global] Instance by_key_dec {A} (x y : Z * A) : Decision (by_key x y) :=
  Z_le_dec _ _.

Definition rows {A} (table : gmap Z A) : list (Z * A) :=
  merge_sort by_key (map_to_list table).

(** [Review.RATING_CHOICES] *)
Definition RATING_CHOICES : list (Z * string) :=
  [ (1, "1 - Poor"%string); (2, "2 - Fair"%string); (3, "3 - Good"%string);
    (4, "4 - Very Good"%string); (5, "5 - Excellent"%string) ].

(** ** Aggregation helpers ([models.py]) *)

(** [book.reviews]: the reverse side of [Review.book]. *)
Definition reviews (db : DB) (book : Z) : gmap Z Review :=
  filter (λ kr, review_book kr.2 = book) (tbl_review db).

(** The column [rating] of a set of review rows. *)
Definition ratings (q : gmap Z Review) : list Z :=
  (λ kr, review_rating kr.2) <$> map_to_list q.

Definition sum_list (xs : list Z) : Z := foldr Z.add 0 xs.

(** The aggregate [Avg]: SQL [AVG], [None] (NULL) over no rows. *)
Definition Avg (xs : list Z) : option Q :=
  match xs with
  | [] => None
  | _ => Some (inject_Z (sum_list xs) / inject_Z (Z.of_nat (length xs)))%Q
  end.

(** Rounding to the nearest integer, ties to the even one. *)
Definition round_half_even (x : Q) : Z :=
  let n := Qnum x in
  let d := Z.pos (Qden x) in
  let f := n / d in
  match (2 * (n mod d) ?= d) with
  | Lt => f
  | Gt => f + 1
  | Eq => if Z.even f then f else f + 1
  end.

(** Python's [round(x, ndigits)]. *)
Definition py_round (x : Q) (ndigits : N) : Q :=
  let p := 10 ^ Z.of_N ndigits in
  (inject_Z (round_half_even (x * inject_Z p)) / inject_Z p)%Q.

(** [floor(log2 x)] for [0 < x]. *)
Definition ilog2 (x : Q) : Z :=
  let e := Z.log2 (Qnum x) - Z.log2 (Z.pos (Qden x)) in
  if Qle_bool (2 ^ e) x then e else e - 1.

(** The number of 53 significant bits nearest to [x], for [0 < x]: a
    multiple of the spacing [ulp] of the floats around [x] (the subnormal
    spacing below [2^-1022]), ties to the even multiple. *)
Definition float_near (x : Q) : Q :=
  let e := Z.max (ilog2 x) (-1022) in
  let ulp := (2 ^ (e - 52))%Q in
  (inject_Z (round_half_even (x / ulp)) * ulp)%Q.

(** The binary64 float nearest to [x], for [0 < x]; the result [2^1024]
    stands for infinity. *)
Definition float_pos (x : Q) : Q :=
  if Qle_bool (2 ^ 1024) (float_near x) then (2 ^ 1024)%Q else float_near x.

(** Python's [float(x)] of a number, and the float of a quotient of two
    floats that hold integers. *)
Definition py_float (x : Q) : Q :=
  match Qnum x with
  | Z0 => 0%Q
  | Zpos _ => float_pos x
  | Zneg _ => (- float_pos (- x))%Q
  end.

(** Truth value of a Python float. *)
Definition float_truthy (x : Q) : bool := negb (Qeq_bool x 0).

(** [Book.average_rating]:
    [avg = self.reviews.aggregate(Avg('rating'))['rating__avg']];
    [return round(avg, 2) if avg else 0]. *)
Definition average_rating (db : DB) (self : Z) : Q :=
  let avg := Avg (ratings (reviews db self)) in
  match avg with
  | Some a => if float_truthy a then py_round a 2 else 0%Q
  | None => 0%Q
  end.

(** [Book.review_count]: [self.reviews.count()]. *)
Definition review_count (db : DB) (self : Z) : nat :=
  size (reviews db self).

(** The arithmetic mean of a list of ratings, as the specification words it. *)
Definition mean (xs : list Z) : Q :=
  (inject_Z (sum_list xs) / inject_Z (Z.of_nat (length xs)))%Q.

(** [r] is [x] rounded to [k] decimal places: a multiple of [10^-k] at
    distance at most half of [10^-k]. *)
Definition rounded_to (k : N) (x r : Q) : Prop :=
  (∃ z : Z, r == inject_Z z / inject_Z (10 ^ Z.of_N k))%Q ∧
  (Qabs (r - x) <= 1 / inject_Z (2 * 10 ^ Z.of_N k))%Q.

(** ** Managers ([models.py]) *)

(** [Book.Meta.ordering = ['-created_at']]: newest first; rows of equal
    [created_at] come in the order of their keys. *)
Definition newer_first (x y : Z * Book) : Prop :=
  book_created_at y.2 < book_created_at x.2 ∨
  book_created_at y.2 = book_created_at x.2 ∧ x.1 <= y.1.

#[global] Instance newer_first_dec x y : Decision (newer_first x y).
Proof. unfold newer_first. apply _. Defined.

(** [Book.objects.all()], in the order of [Meta.ordering]. *)
Definition Book_objects_all (db : DB) : list (Z * Book) :=
  merge_sort newer_first (rows (tbl_book db)).

(** [Author.objects.all()]: no ordering declared. *)
Definition Author_objects_all (db : DB) : list (Z * Author) :=
  rows (tbl_author db).

(** [BookManager.published]: [return self.all()]. *)
Definition published (db : DB) : list (Z * Book) := Book_objects_all db.

(** [annotate(avg_rating=Avg('reviews__rating'))]: every row of the
    queryset with the aggregate over its joined review rows. The store
    divides the sum by the count as floats; the quotient is the float
    nearest to the mean, the sum and the count being below [2^53]. *)
Definition annotate_avg_rating (db : DB) (qs : list (Z * Book))
  : list (Z * Book * option Q) :=
  (λ kb, (kb, py_float <$> Avg (ratings (reviews db kb.1)))) <$> qs.

(** The lookup [avg_rating__gte]: SQL [>=] on two floats, not true of
    NULL. *)
Definition sql_gte (x : option Q) (y : Q) : bool :=
  match x with
  | Some a => Qle_bool y a
  | None => false
  end.

(** [BookManager.highly_rated]:
    [self.annotate(avg_rating=Avg('reviews__rating')).filter(avg_rating__gte=min_rating)].
    The query groups the rows by book, so [Meta.ordering] does not apply to
    it; the lookup hands [float(min_rating)] to the store. *)
Definition highly_rated (db : DB) (min_rating : Q) : list (Z * Book * option Q) :=
  filter (λ row, sql_gte row.2 (py_float min_rating) = true)
         (annotate_avg_rating db (rows (tbl_book db))).

(** The default argument [min_rating=4.0]. *)
Definition highly_rated_default (db : DB) : list (Z * Book * option Q) :=
  highly_rated db 4%Q.

(** ** Strings of a request *)

(** Python's [str.isspace]: the blanks among the code points below 256. *)
Definition is_space (c : ascii) : bool :=
  let n := nat_of_ascii c in
  ((9 <=? n) && (n <=? 13) || (28 <=? n) && (n <=? 32) ||
   (n =? 133) || (n =? 160))%nat.

(** The blanks that [int] skips around a literal: those of [str.isspace]
    but the four separators U+001C to U+001F. *)
Definition is_int_space (c : ascii) : bool :=
  let n := nat_of_ascii c in
  ((9 <=? n) && (n <=? 13) || (n =? 32) || (n =? 133) || (n =? 160))%nat.

Fixpoint lstrip_by (blank : ascii → bool) (s : string) : string :=
  match s with
  | String c s' => if blank c then lstrip_by blank s' else s
  | EmptyString => EmptyString
  end.

Definition strip_by (blank : ascii → bool) (s : string) : string :=
  String.rev (lstrip_by blank (String.rev (lstrip_by blank s))).

(** [str.strip()] *)
Definition strip (s : string) : string := strip_by is_space s.

Definition digit_val (c : ascii) : option Z :=
  let n := nat_of_ascii c in
  if ((48 <=? n) && (n <=? 57))%nat then Some (Z.of_nat n - 48) else None.

(** The digits of a decimal literal, single underscores allowed between
    digits. *)
Fixpoint digits_val (s : string) (acc : Z) (after_digit : bool) : option Z :=
  match s with
  | EmptyString => if after_digit then Some acc else None
  | String c s' =>
      match digit_val c with
      | Some d => digits_val s' (10 * acc + d) true
      | None =>
          if decide (c = "_"%char)
          then (if after_digit then digits_val s' acc false else None)
          else None
      end
  end.

Fixpoint count_digits (s : string) : Z :=
  match s with
  | String c s' =>
      match digit_val c with Some _ => 1 | None => 0 end + count_digits s'
  | EmptyString => 0
  end.

(** Python's [int(s)] on a string, base 10: blanks, a sign, the digits,
    blanks; [None] stands for [ValueError], which a literal of more than
    4300 digits raises as well. *)
Definition py_int (s : string) : option Z :=
  let literal := strip_by is_int_space s in
  if decide (count_digits literal <= 4300) then
    match literal with
    | String "-" s' => Z.opp <$> digits_val s' 0 false
    | String "+" s' => digits_val s' 0 false
    | s' => digits_val s' 0 false
    end
  else None.

(** [QueryDict]: every key has a list of values. *)
Definition QueryDict := gmap string (list string).

(** [QueryDict.get(key)]: the last value, [None] when there is none. *)
Definition QueryDict_get (q : QueryDict) (key : string) : option string :=
  q !! key ≫= last.

(** [QueryDict.getlist(key)] *)
Definition QueryDict_getlist (q : QueryDict) (key : string) : list string :=
  default [] (q !! key).

(** A value that passes [if value:]: present and not the empty string. *)
Definition truthy (v : option string) : option string :=
  match v with
  | Some s => if decide (s = EmptyString) then None else Some s
  | None => None
  end.

(** ** Requests and responses *)

Inductive Method := GET | POST.

(** An uploaded file: its name, and whether it passes the image checks
    of the framework (the imaging library reads the content as an image and
    knows the extension of the name). *)
Record UploadedFile := mkUploadedFile {
  upload_name : string;
  upload_is_image : bool
}.

Record HttpRequest := mkRequest {
  method : Method;
  session_user : option Z;
  GET_data : QueryDict;
  POST_data : QueryDict;
  FILES_data : gmap string UploadedFile;
  now : Z;
  now_again : Z
}.

(** [request.user]: the session's user when that row still exists,
    otherwise the anonymous user ([None]). *)
Definition request_user (db : DB) (request : HttpRequest) : option Z :=
  match session_user request with
  | Some u => if decide (u ∈ tbl_user db) then Some u else None
  | None => None
  end.

(** Exceptions no handler catches. *)
Inductive Exception := IntegrityError | ValueError.

Inductive HttpResponse (C : Type) :=
| Render (template : string) (context : C)
| Redirect (to : string) (pk : option Z)
| RedirectLogin
| Http404
| ServerError (e : Exception).
Arguments Render {C} template context.
Arguments Redirect {C} to pk.
Arguments RedirectLogin {C}.
Arguments Http404 {C}.
Arguments ServerError {C} e.

(** ** Form fields

    The fields of a [ModelForm], by the checks of the framework's field
    classes that the handlers rely on: required values, [max_length],
    choices, integer and date syntax, existence of a referenced key. [None]
    is a validation error. *)

(** A text with the null character in it. *)
Fixpoint has_null (s : string) : bool :=
  match s with
  | String c s' => (nat_of_ascii c =? 0)%nat || has_null s'
  | EmptyString => false
  end.

(** [CharField]: the value is stripped first; a null character is refused
    ([ProhibitNullCharactersValidator]). *)
Definition CharField_clean (required : bool) (max_length : option nat)
    (v : option string) : option string :=
  let s := strip (default EmptyString v) in
  if decide (s = EmptyString) then (if required then None else Some s)
  else if has_null s then None
  else match max_length with
       | Some n => if decide (String.length s ≤ n)%nat then Some s else None
       | None => Some s
       end.

(** [TypedChoiceField(coerce=int)]: required, and the submitted text is
    [str(k)] for a choice [k]. *)
Definition ChoiceField_clean (choices : list (Z * string)) (v : option string)
    : option Z :=
  s ← truthy v;
  fst <$> head (filter (λ c, pretty c.1 = s) choices).

(** Whether a text is zeros followed by blanks: the pattern [0*\s*$] . *)
Fixpoint zeros_blanks (s : string) (zeros : bool) : bool :=
  match s with
  | String c s' =>
      if zeros && bool_decide (c = "0"%char) then zeros_blanks s' true
      else is_space c && zeros_blanks s' false
  | EmptyString => true
  end.

(** [re_decimal.sub('', s)] for [re_decimal = r'\.0*\s*$'] : a dot with
    only zeros and then blanks after it is cut off with them. *)
Fixpoint strip_decimal (s : string) : string :=
  match s with
  | String c s' =>
      if bool_decide (c = "."%char) && zeros_blanks s' true then EmptyString
      else String c (strip_decimal s')
  | EmptyString => EmptyString
  end.

(** The range of an integer column of the store (64 bits, signed). *)
Definition in_integer_range (k : Z) : Prop := - 2 ^ 63 <= k < 2 ^ 63.

(** [IntegerField], required: [int] of the text without a trailing [.0],
    within the range of the column. *)
Definition IntegerField_clean (v : option string) : option Z :=
  s ← truthy v;
  k ← py_int (strip_decimal s);
  if decide (in_integer_range k) then Some k else None.

(** [ImageField], not required: the name has at most [max_length]
    characters and the file passes the image checks. The outer [None] is a
    validation error. *)
Definition ImageField_clean (max_length : nat) (f : option UploadedFile)
    : option (option string) :=
  match f with
  | None => Some None
  | Some file =>
      if decide (upload_name file ≠ EmptyString ∧
                 (String.length (upload_name file) ≤ max_length)%nat ∧
                 upload_is_image file = true)
      then Some (Some (upload_name file)) else None
  end.

(** [ModelChoiceField], required: [queryset.get(pk=value)]. *)
Definition ModelChoiceField_clean {A} (table : gmap Z A) (v : option string)
    : option Z :=
  s ← truthy v;
  k ← py_int s;
  if decide (is_Some (table !! k)) then Some k else None.

(** [ModelMultipleChoiceField], not required: every value converts to the
    key of a row, and is [str(pk)] of that row. *)
Definition ModelMultipleChoiceField_clean {A} (table : gmap Z A)
    (vs : list string) : option (gset Z) :=
  list_to_set <$>
    mapM (λ s, k ← py_int s;
               if decide (is_Some (table !! k) ∧ pretty k = s) then Some k
               else None) vs.

(** Lower case of an ASCII letter. *)
Definition lower_char (c : ascii) : ascii :=
  let n := nat_of_ascii c in
  if ((65 <=? n) && (n <=? 90))%nat then ascii_of_nat (n + 32) else c.

Fixpoint lower (s : string) : string :=
  match s with
  | String c s' => String (lower_char c) (lower s')
  | EmptyString => EmptyString
  end.

(** [BooleanField] behind a checkbox: absent is [False], and so are the
    empty value and the word [false]. *)
Definition BooleanField_clean (v : option string) : bool :=
  match v with
  | None => false
  | Some s => negb (bool_decide (lower s ∈ ["false"; ""]%string))
  end.

(** The parts of [s] between the occurrences of [sep] ([str.split(sep)]). *)
Fixpoint split_on (sep : ascii) (s : string) : list string :=
  match s with
  | EmptyString => [EmptyString]
  | String c s' =>
      if decide (c = sep) then EmptyString :: split_on sep s'
      else match split_on sep s' with
           | p :: ps => String c p :: ps
           | [] => [String c EmptyString]
           end
  end.

Definition is_leap (y : Z) : bool :=
  (y mod 4 =? 0) && (negb (y mod 100 =? 0) || (y mod 400 =? 0)).

Definition days_in_month (y m : Z) : Z :=
  if m =? 2 then (if is_leap y then 29 else 28)
  else if bool_decide (m ∈ [4; 6; 9; 11]) then 30 else 31.

(** A plain run of decimal digits. *)
Definition all_digits (s : string) : option Z :=
  if bool_decide (Forall (λ c, is_Some (digit_val c)) (String.list_ascii_of_string s))
  then digits_val s 0 false else None.

(** [DateField], not required, in the format [%Y-%m-%d] that a date input
    submits. The outer [None] is a validation error. *)
Definition DateField_clean (v : option string) : option (option (Z * Z * Z)) :=
  let s := strip (default EmptyString v) in
  if decide (s = EmptyString) then Some None
  else match split_on "-" s with
       | [ys; ms; ds] =>
           y ← all_digits ys; m ← all_digits ms; d ← all_digits ds;
           if bool_decide (String.length ys = 4%nat ∧ (String.length ms ≤ 2)%nat ∧
                           (String.length ds ≤ 2)%nat ∧ 1 <= y ∧ 1 <= m <= 12 ∧
                           1 <= d <= days_in_month y m)
           then Some (Some (y, m, d)) else None
       | _ => None
       end.

(** ** Writes to the store *)

(** The largest key that the table of a model has given out. *)
Definition seq_of (db : DB) (model : string) : Z :=
  default 0 (key_seq db !! model).

(** The key of a new row: one above the largest key that the table holds
    or has given out before. *)
Definition fresh_pk {A} (seq : Z) (table : gmap Z A) : Z :=
  1 + Z.max seq (foldr Z.max 0 (map_to_list table).*1).

Definition fresh_user (seq : Z) (users : gset Z) : Z :=
  1 + Z.max seq (foldr Z.max 0 (elements users)).

(** [Review.Meta.unique_together = ['book', 'user']], as the store checks
    it on INSERT. *)
Definition review_pair_taken (db : DB) (book user : Z) : Prop :=
  map_Exists (λ _ r, review_book r = book ∧ review_user r = user) (tbl_review db).

(** [review.save()] of a new row. *)
Definition Review_save (db : DB) (r : Review) : Exception + DB :=
  if decide (review_pair_taken db (review_book r) (review_user r))
  then inl IntegrityError
  else
    let pk := fresh_pk (seq_of db "Review") (tbl_review db) in
    inr (mkDB (tbl_user db) (tbl_author db) (tbl_book db)
              (<[pk := r]> (tbl_review db)) (tbl_reading_list db)
              (<["Review"%string := pk]> (key_seq db))).

Definition Author_save (db : DB) (a : Author) : DB :=
  let pk := fresh_pk (seq_of db "Author") (tbl_author db) in
  mkDB (tbl_user db) (<[pk := a]> (tbl_author db)) (tbl_book db)
       (tbl_review db) (tbl_reading_list db)
       (<["Author"%string := pk]> (key_seq db)).

Definition Book_save (db : DB) (b : Book) : DB :=
  let pk := fresh_pk (seq_of db "Book") (tbl_book db) in
  mkDB (tbl_user db) (tbl_author db) (<[pk := b]> (tbl_book db))
       (tbl_review db) (tbl_reading_list db)
       (<["Book"%string := pk]> (key_seq db)).

(** INSERT of a reading list; the new key is returned with the store. No
    validator runs on this path ([max_length] is a matter of the form). *)
Definition ReadingList_save (db : DB) (l : ReadingList) : Z * DB :=
  let pk := fresh_pk (seq_of db "ReadingList") (tbl_reading_list db) in
  (pk, mkDB (tbl_user db) (tbl_author db) (tbl_book db) (tbl_review db)
            (<[pk := l]> (tbl_reading_list db))
            (<["ReadingList"%string := pk]> (key_seq db))).

Definition rl_add_book (book : Z) (l : ReadingList) : ReadingList :=
  mkReadingList (rl_name l) (rl_user l) ({[book]} ∪ rl_books l)
                (rl_description l) (rl_is_public l) (rl_created_at l).

Definition rl_remove_books (gone : gset Z) (l : ReadingList) : ReadingList :=
  mkReadingList (rl_name l) (rl_user l) (rl_books l ∖ gone)
                (rl_description l) (rl_is_public l) (rl_created_at l).

(** [reading_list.books.add(book)] *)
Definition ReadingList_books_add (db : DB) (list_pk book : Z) : DB :=
  mkDB (tbl_user db) (tbl_author db) (tbl_book db) (tbl_review db)
       (alter (rl_add_book book) list_pk (tbl_reading_list db)) (key_seq db).

(** A new account of the framework's [User] model. *)
Definition User_create (db : DB) : DB :=
  let pk := fresh_user (seq_of db "User") (tbl_user db) in
  mkDB ({[pk]} ∪ tbl_user db) (tbl_author db) (tbl_book db) (tbl_review db)
       (tbl_reading_list db) (<["User"%string := pk]> (key_seq db)).

(** *** Deletion with [on_delete=models.CASCADE] *)

(** The books [gone] leave with what refers to them: their reviews
    ([Review.book]) and their links to reading lists ([ReadingList.books]). *)
Definition delete_books (db : DB) (gone : gset Z) : DB :=
  mkDB (tbl_user db) (tbl_author db)
       (filter (λ kb, kb.1 ∉ gone) (tbl_book db))
       (filter (λ kr, review_book kr.2 ∉ gone) (tbl_review db))
       (rl_remove_books gone <$> tbl_reading_list db) (key_seq db).

(** [book.delete()] *)
Definition Book_delete (db : DB) (pk : Z) : DB := delete_books db {[pk]}.

(** [author.delete()]: [Book.author] cascades. *)
Definition Author_delete (db : DB) (pk : Z) : DB :=
  let gone := dom (filter (λ kb, book_author kb.2 = pk) (tbl_book db)) in
  let db' := delete_books db gone in
  mkDB (tbl_user db') (delete pk (tbl_author db')) (tbl_book db')
       (tbl_review db') (tbl_reading_list db') (key_seq db').

(** [user.delete()]: [Review.user] and [ReadingList.user] cascade. *)
Definition User_delete (db : DB) (pk : Z) : DB :=
  mkDB (tbl_user db ∖ {[pk]}) (tbl_author db) (tbl_book db)
       (filter (λ kr, review_user kr.2 ≠ pk) (tbl_review db))
       (filter (λ kl, rl_user kl.2 ≠ pk) (tbl_reading_list db)) (key_seq db).

(** [review.delete()] *)
Definition Review_delete (db : DB) (pk : Z) : DB :=
  mkDB (tbl_user db) (tbl_author db) (tbl_book db)
       (delete pk (tbl_review db)) (tbl_reading_list db) (key_seq db).

(** [reading_list.delete()] *)
Definition ReadingList_delete (db : DB) (pk : Z) : DB :=
  mkDB (tbl_user db) (tbl_author db) (tbl_book db) (tbl_review db)
       (delete pk (tbl_reading_list db)) (key_seq db).

(** ** Forms ([forms.py]) *)

(** [book_cover_path(instance, filename)] *)
Definition book_cover_path (instance_id : option Z) (filename : string) : string :=
  let ext := default EmptyString (last (split_on "." filename)) in
  let id := match instance_id with Some i => pretty i | None => "None"%string end in
  "book_covers/" +:+ "book_" +:+ id +:+ "_cover." +:+ ext.

(** [ReviewForm]: [fields = ['rating', 'review_text']]. The pair
    [(book, user)] is not among the fields, so validation does not look at
    [unique_together]. *)
Definition ReviewForm_clean (data : QueryDict) : option (Z * string) :=
  rating ← ChoiceField_clean RATING_CHOICES (QueryDict_get data "rating");
  text ← CharField_clean true None (QueryDict_get data "review_text");
  Some (rating, text).

(** [AuthorForm]: [fields = ['name', 'bio', 'birth_date']]. *)
Definition AuthorForm_clean (data : QueryDict) : option Author :=
  name ← CharField_clean true (Some 200%nat) (QueryDict_get data "name");
  bio ← CharField_clean false None (QueryDict_get data "bio");
  birth_date ← DateField_clean (QueryDict_get data "birth_date");
  Some (mkAuthor name bio birth_date).

(** [BookForm]: [fields = ['title', 'author', 'isbn', 'publication_year',
    'description', 'cover_image']]; [isbn] is validated as unique. The row
    is the one that [form.save()] inserts: the cover is named by
    [upload_to] for an instance without a key yet (the storage may change
    the name to one that is free), and [created_at] and [updated_at] are
    filled in one after the other, each from the clock. *)
Definition BookForm_clean (db : DB) (request : HttpRequest) : option Book :=
  let data := POST_data request in
  title ← CharField_clean true (Some 200%nat) (QueryDict_get data "title");
  author ← ModelChoiceField_clean (tbl_author db) (QueryDict_get data "author");
  isbn ← CharField_clean true (Some 13%nat) (QueryDict_get data "isbn");
  year ← IntegerField_clean (QueryDict_get data "publication_year");
  description ← CharField_clean false None (QueryDict_get data "description");
  cover_image ← ImageField_clean 100 (FILES_data request !! "cover_image"%string);
  if decide (map_Exists (λ _ b, book_isbn b = isbn) (tbl_book db)) then None
  else Some (mkBook title author isbn year description
               (book_cover_path None <$> cover_image)
               (now request) (now_again request)).

(** [ReadingListForm]: [fields = ['name', 'description', 'is_public',
    'books']]; the owner is set by the view. *)
Definition ReadingListForm_clean (db : DB) (request : HttpRequest) (user : Z)
    : option ReadingList :=
  let data := POST_data request in
  name ← CharField_clean true (Some 200%nat) (QueryDict_get data "name");
  description ← CharField_clean false None (QueryDict_get data "description");
  books ← ModelMultipleChoiceField_clean (tbl_book db) (QueryDict_getlist data "books");
  Some (mkReadingList name user books description
          (BooleanField_clean (QueryDict_get data "is_public")) (now request)).

(** ** Pagination (the framework's [Paginator], as [ListView] sets it up:
    no orphans, an empty first page allowed) *)

(** Python's [l[lo:hi]] for [0 <= lo]. *)
Definition slice {A} (l : list A) (lo hi : Z) : list A :=
  take (Z.to_nat (hi - lo)) (drop (Z.to_nat lo) l).

(** [Paginator.num_pages]: [ceil(max(1, count) / per_page)]. *)
Definition num_pages (count per_page : Z) : Z :=
  (Z.max 1 count + per_page - 1) / per_page.

(** [Paginator.page(number)]; [None] is [EmptyPage]. *)
Definition Paginator_page {A} (object_list : list A) (per_page number : Z)
    : option (list A) :=
  let count := Z.of_nat (length object_list) in
  if decide (number < 1) then None
  else if decide (number > num_pages count per_page) then None
  else
    let bottom := (number - 1) * per_page in
    let top := bottom + per_page in
    let top := if decide (top >= count) then count else top in
    Some (slice object_list bottom top).

(** [MultipleObjectMixin.paginate_queryset]: the page is
    [request.GET.get('page') or 1], an integer or the word [last];
    [None] is [Http404]. *)
Definition paginate_queryset {A} (queryset : list A) (page_size : Z)
    (page : option string) : option (list A) :=
  page_number ←
    match truthy page with
    | None => Some 1
    | Some p =>
        match py_int p with
        | Some n => Some n
        | None =>
            if decide (p = "last"%string)
            then Some (num_pages (Z.of_nat (length queryset)) page_size)
            else None
        end
    end;
  Paginator_page queryset page_size page_number.

(** ** Views ([views.py]) *)

(** [class BookListView(ListView)]: [model = Book], [paginate_by = 12]. *)
Definition BookListView (request : HttpRequest) (db : DB)
    : HttpResponse (list (Z * Book)) :=
  let paginate_by := 12 in
  match paginate_queryset (Book_objects_all db) paginate_by
          (QueryDict_get (GET_data request) "page") with
  | Some object_list => Render "core/book_list.html" object_list
  | None => Http404
  end.

(** [class AuthorListView(ListView)]: [model = Author], [paginate_by = 20]. *)
Definition AuthorListView (request : HttpRequest) (db : DB)
    : HttpResponse (list (Z * Author)) :=
  let paginate_by := 20 in
  match paginate_queryset (Author_objects_all db) paginate_by
          (QueryDict_get (GET_data request) "page") with
  | Some object_list => Render "core/author_list.html" object_list
  | None => Http404
  end.

(** [class AddBookView(LoginRequiredMixin, CreateView)] *)
Definition AddBookView (request : HttpRequest) (db : DB)
    : HttpResponse unit * DB :=
  match request_user db request with
  | None => (RedirectLogin, db)
  | Some _ =>
      match method request with
      | POST =>
          match BookForm_clean db request with
          | Some book => (Redirect "book-list" None, Book_save db book)
          | None => (Render "core/book_form.html" (), db)
          end
      | GET => (Render "core/book_form.html" (), db)
      end
  end.

(** [class AddAuthorView(LoginRequiredMixin, CreateView)] *)
Definition AddAuthorView (request : HttpRequest) (db : DB)
    : HttpResponse unit * DB :=
  match request_user db request with
  | None => (RedirectLogin, db)
  | Some _ =>
      match method request with
      | POST =>
          match AuthorForm_clean (POST_data request) with
          | Some author => (Redirect "author-list" None, Author_save db author)
          | None => (Render "core/author_form.html" (), db)
          end
      | GET => (Render "core/author_form.html" (), db)
      end
  end.

(** [add_review(request, book_id)], under [@login_required]. *)
Definition add_review (request : HttpRequest) (book_id : Z) (db : DB)
    : HttpResponse unit * DB :=
  match request_user db request with
  | None => (RedirectLogin, db)
  | Some user =>
      match tbl_book db !! book_id with
      | None => (Http404, db)
      | Some _ =>
          match method request with
          | POST =>
              match ReviewForm_clean (POST_data request) with
              | Some (rating, text) =>
                  let review :=
                    mkReview book_id user rating text
                      (now request) (now_again request) in
                  match Review_save db review with
                  | inr db' => (Redirect "book-detail" (Some book_id), db')
                  | inl e => (ServerError e, db)
                  end
              | None => (Render "core/add_review.html" (), db)
              end
          | GET => (Render "core/add_review.html" (), db)
          end
      end
  end.

(** [ReadingListView.get_queryset]:
    [ReadingList.objects.filter(user=self.request.user)]. *)
Definition get_queryset (db : DB) (user : Z) : gmap Z ReadingList :=
  filter (λ kl, rl_user kl.2 = user) (tbl_reading_list db).

(** [class ReadingListView(LoginRequiredMixin, ListView)] *)
Definition ReadingListView (request : HttpRequest) (db : DB)
    : HttpResponse (list (Z * ReadingList)) :=
  match request_user db request with
  | None => RedirectLogin
  | Some user => Render "core/reading_list.html" (rows (get_queryset db user))
  end.

(** [class CreateReadingListView(LoginRequiredMixin, CreateView)];
    [form_valid] sets [form.instance.user = self.request.user]. *)
Definition CreateReadingListView (request : HttpRequest) (db : DB)
    : HttpResponse unit * DB :=
  match request_user db request with
  | None => (RedirectLogin, db)
  | Some user =>
      match method request with
      | POST =>
          match ReadingListForm_clean db request user with
          | Some l => (Redirect "reading-lists" None, (ReadingList_save db l).2)
          | None => (Render "core/reading_list_form.html" (), db)
          end
      | GET => (Render "core/reading_list_form.html" (), db)
      end
  end.

(** [get_object_or_404(ReadingList, pk=pk, user=user)]; [None] is [Http404].
    The key arrives as text and is converted by [int]. *)
Definition get_ReadingList (db : DB) (pk user : Z) : option ReadingList :=
  l ← tbl_reading_list db !! pk;
  if decide (rl_user l = user) then Some l else None.

(** [add_to_reading_list(request, book_id)], under [@login_required]. *)
Definition add_to_reading_list (request : HttpRequest) (book_id : Z) (db : DB)
    : HttpResponse unit * DB :=
  match request_user db request with
  | None => (RedirectLogin, db)
  | Some user =>
      match tbl_book db !! book_id with
      | None => (Http404, db)
      | Some _ =>
          match method request with
          | POST =>
              match truthy (QueryDict_get (POST_data request) "reading_list") with
              | Some reading_list_id =>
                  match py_int reading_list_id with
                  | None => (ServerError ValueError, db)
                  | Some pk =>
                      match get_ReadingList db pk user with
                      | None => (Http404, db)
                      | Some _ =>
                          (Redirect "book-detail" (Some book_id),
                           ReadingList_books_add db pk book_id)
                      end
                  end
              | None =>
                  match truthy (QueryDict_get (POST_data request) "new_list_name") with
                  | Some name =>
                      let '(pk, db') :=
                        ReadingList_save db
                          (mkReadingList name user ∅ EmptyString true (now request)) in
                      (Redirect "book-detail" (Some book_id),
                       ReadingList_books_add db' pk book_id)
                  | None => (Redirect "book-detail" (Some book_id), db)
                  end
              end
          | GET => (Redirect "book-detail" (Some book_id), db)
          end
      end
  end.

(** ** The operations on the store *)

(** One operation: a request to a view that writes, a new account, or the
    deletion of a row with its cascade. *)
Inductive step : DB → DB → Prop :=
| step_add_review request book_id db :
    step db (add_review request book_id db).2
| step_add_to_reading_list request book_id db :
    step db (add_to_reading_list request book_id db).2
| step_add_book request db : step db (AddBookView request db).2
| step_add_author request db : step db (AddAuthorView request db).2
| step_create_reading_list request db :
    step db (CreateReadingListView request db).2
| step_user_create db : step db (User_create db)
| step_author_delete pk db : step db (Author_delete db pk)
| step_book_delete pk db : step db (Book_delete db pk)
| step_user_delete pk db : step db (User_delete db pk)
| step_review_delete pk db : step db (Review_delete db pk)
| step_reading_list_delete pk db : step db (ReadingList_delete db pk).

(** The stores the operations build from the empty one. *)
Definition reachable (db : DB) : Prop := rtc step empty_db db.

(** ** Invariants *)

(** Every foreign key and every many-to-many link refers to a row. *)
Record fk_ok (db : DB) : Prop := mk_fk_ok {
  fk_book_author : ∀ k b, tbl_book db !! k = Some b →
    is_Some (tbl_author db !! book_author b);
  fk_review_book : ∀ k r, tbl_review db !! k = Some r →
    is_Some (tbl_book db !! review_book r);
  fk_review_user : ∀ k r, tbl_review db !! k = Some r →
    review_user r ∈ tbl_user db;
  fk_rl_user : ∀ k l, tbl_reading_list db !! k = Some l →
    rl_user l ∈ tbl_user db;
  fk_rl_books : ∀ k l b, tbl_reading_list db !! k = Some l →
    b ∈ rl_books l → is_Some (tbl_book db !! b)
}.

(** [unique_together = ['book', 'user']]: two review rows of one pair are
    one row. *)
Definition review_unique (db : DB) : Prop :=
  ∀ k1 k2 r1 r2,
    tbl_review db !! k1 = Some r1 → tbl_review db !! k2 = Some r2 →
    review_book r1 = review_book r2 → review_user r1 = review_user r2 →
    k1 = k2.

(** Every stored rating is one of [RATING_CHOICES]. *)
Definition ratings_ok (db : DB) : Prop :=
  ∀ k r, tbl_review db !! k = Some r → review_rating r ∈ RATING_CHOICES.*1.
(** ** A sample session

    Three accounts, an author, three books; book 1 is rated 5 and 3, book 2
    is rated 3, 4 and 4, book 3 has no review; user 1 and user 2 own one
    reading list each. *)

Definition query (l : list (string * string)) : QueryDict :=
  list_to_map ((λ kv, (kv.1, [kv.2])) <$> l).

Definition post_as (user : Z) (data : list (string * string)) (t : Z)
    : HttpRequest :=
  mkRequest POST (Some user) ∅ (query data) ∅ t (t + 1).

Definition get_as (user : Z) (data : list (string * string)) (t : Z)
    : HttpRequest :=
  mkRequest GET (Some user) (query data) ∅ ∅ t (t + 1).

Definition review_as (user rating_t : Z) (rating : string) : HttpRequest :=
  post_as user [("rating", rating); ("review_text", "Read it.")]%string rating_t.

Definition book_data (title isbn : string) : list (string * string) :=
  [("title", title); ("author", "1"); ("isbn", isbn);
   ("publication_year", "2020")]%string.

Definition sample_users : DB := User_create (User_create (User_create empty_db)).

Definition sample_catalog : DB :=
  let db := (AddAuthorView (post_as 1 [("name", "A. Writer")]%string 10) sample_users).2 in
  let db := (AddBookView (post_as 1 (book_data "Title X" "1111111111111") 11) db).2 in
  let db := (AddBookView (post_as 1 (book_data "Title Y" "2222222222222") 12) db).2 in
  (AddBookView (post_as 1 (book_data "Title Z" "3333333333333") 13) db).2.

(** Book 1 after the review of user 1 alone. *)
Definition sample_first_review : DB :=
  (add_review (review_as 1 20 "5") 1 sample_catalog).2.

Definition sample_reviews : DB :=
  let db := (add_review (review_as 2 21 "3") 1 sample_first_review).2 in
  let db := (add_review (review_as 1 22 "3") 2 db).2 in
  let db := (add_review (review_as 2 23 "4") 2 db).2 in
  (add_review (review_as 3 24 "4") 2 db).2.

Definition sample_db : DB :=
  let db := (add_to_reading_list
               (post_as 1 [("new_list_name", "Mine")]%string 30) 1 sample_reviews).2 in
  (CreateReadingListView
     (post_as 2 [("name", "Shared"); ("is_public", "on"); ("books", "2")]%string 31)
     db).2.

(** A catalog of [n] more books, added one request at a time. *)
Fixpoint add_books (n : nat) (db : DB) : DB :=
  match n with
  | O => db
  | S n' =>
      (AddBookView
         (post_as 1 (book_data "Another book" ("978" +:+ pretty (Z.of_nat n)))
            (100 + Z.of_nat n))
         (add_books n' db)).2
  end.

Definition page_of (v : HttpResponse (list (Z * Book))) : option (list Z) :=
  match v with
  | Render _ object_list => Some object_list.*1
  | _ => None
  end.

(** ** The remaining views ([views.py]) *)

(** The context of [home]. *)
Record HomeContext := mkHomeContext {
  recent_books : list (Z * Book);
  authors_count : nat;
  books_count : nat
}.

(** [home(request)]: [Book.objects.all().order_by('-created_at')[:6]],
    [Author.objects.count()], [Book.objects.count()]. *)
Definition home (request : HttpRequest) (db : DB) : HttpResponse HomeContext :=
  let recent_books := take 6 (merge_sort newer_first (rows (tbl_book db))) in
  let authors_count := size (tbl_author db) in
  let books_count := size (tbl_book db) in
  Render "core/home.html" (mkHomeContext recent_books authors_count books_count).



(** [class ReadingListDetailView(LoginRequiredMixin, DetailView)]:
    [model = ReadingList], no [get_queryset] of its own. *)
Definition ReadingListDetailView (request : HttpRequest) (pk : Z) (db : DB)
    : HttpResponse ReadingList :=
  match request_user db request with
  | None => RedirectLogin
  | Some _ =>
      match tbl_reading_list db !! pk with
      | Some reading_list => Render "core/reading_list_detail.html" reading_list
      | None => Http404
      end
  end.

(** ** String representations ([models.py]) *)

(** [Author.__str__] *)
Definition Author_str (a : Author) : string := author_name a.

(** [Book.__str__]: [f"{self.title} by {self.author.name}"]; following
    [self.author] raises [DoesNotExist] ([None]) when the row is missing. *)
Definition Book_str (db : DB) (b : Book) : option string :=
  author ← tbl_author db !! book_author b;
  Some (book_title b +:+ " by " +:+ author_name author).

(** ** URLs ([urls.py])

    Paths are relative to the place where the project mounts this URL
    configuration. *)

(** [urlpatterns]: the route and the name of every [path(...)], in the
    order of the source. *)
Definition urlpatterns : list (string * string) :=
  [ ("", "home");
    ("books/", "book-list");
    ("books/<int:pk>/", "book-detail");
    ("books/add/", "add-book");
    ("books/<int:book_id>/review/", "add-review");
    ("books/<int:book_id>/add-to-list/", "add-to-reading-list");
    ("authors/", "author-list");
    ("authors/<int:pk>/", "author-detail");
    ("authors/add/", "add-author");
    ("reading-lists/", "reading-lists");
    ("reading-lists/create/", "create-reading-list");
    ("reading-lists/<int:pk>/", "reading-list-detail") ]%string.

(** The rest of [s] after the prefix [p]. *)
Fixpoint strip_prefix (p s : string) : option string :=
  match p, s with
  | EmptyString, _ => Some s
  | String a p', String b s' => if decide (a = b) then strip_prefix p' s' else None
  | String _ _, EmptyString => None
  end.

(** The parameter name of a route segment [<int:name>]. *)
Definition int_converter (segment : string) : option string :=
  rest ← strip_prefix "<int:" segment;
  String.rev <$> strip_prefix ">" (String.rev rest).

(** A route against a path, segment by segment: a literal segment matches
    itself, [<int:name>] matches a non-empty run of digits and binds its
    value. *)
Fixpoint match_segments (route path : list string) : option (gmap string Z) :=
  match route, path with
  | [], [] => Some ∅
  | r :: route', p :: path' =>
      match int_converter r with
      | Some name =>
          v ← all_digits p;
          kwargs ← match_segments route' path';
          Some (<[name := v]> kwargs)
      | None => if decide (r = p) then match_segments route' path' else None
      end
  | _, _ => None
  end.

(** [resolve(path)]: the name and the keyword arguments of the first
    pattern that matches; [None] is [Resolver404]. *)
Fixpoint resolve_in (patterns : list (string * string)) (path : string)
    : option (string * gmap string Z) :=
  match patterns with
  | [] => None
  | (route, name) :: patterns' =>
      match match_segments (split_on "/" route) (split_on "/" path) with
      | Some kwargs => Some (name, kwargs)
      | None => resolve_in patterns' path
      end
  end.

Definition resolve (path : string) : option (string * gmap string Z) :=
  resolve_in urlpatterns path.

(** [sep.join(parts)] *)
Fixpoint join (sep : string) (parts : list string) : string :=
  match parts with
  | [] => EmptyString
  | [p] => p
  | p :: parts' => p +:+ sep +:+ join sep parts'
  end.

(** The segments of a route with its parameters filled in; a value that
    [<int:...>] would not match back (a negative one) is refused. *)
Fixpoint fill_segments (route : list string) (kwargs : gmap string Z)
    : option (list string) :=
  match route with
  | [] => Some []
  | r :: route' =>
      rest ← fill_segments route' kwargs;
      match int_converter r with
      | Some name =>
          v ← kwargs !! name;
          if decide (0 <= v) then Some (pretty v :: rest) else None
      | None => Some (r :: rest)
      end
  end.

(** The parameter names of a route. *)
Definition route_params (route : list string) : gset string :=
  list_to_set (omap int_converter route).

(** [reverse(name, kwargs=kwargs)]; [None] is [NoReverseMatch]. *)
Fixpoint reverse_in (patterns : list (string * string)) (name : string)
    (kwargs : gmap string Z) : option string :=
  match patterns with
  | [] => None
  | (route, name') :: patterns' =>
      let segments := split_on "/" route in
      match (if decide (name' = name ∧ dom kwargs = route_params segments)
             then fill_segments segments kwargs else None) with
      | Some parts => Some (join "/" parts)
      | None => reverse_in patterns' name kwargs
      end
  end.

Definition reverse (name : string) (kwargs : gmap string Z) : option string :=
  reverse_in urlpatterns name kwargs.



(** Whether a path filled in from the route segment [late] can match the
    route segment [early]. *)
Definition seg_may_match (early late : string) : bool :=
  match int_converter early, int_converter late with
  | Some _, Some _ => true
  | Some _, None => bool_decide (is_Some (all_digits late))
  | None, Some _ => bool_decide (is_Some (all_digits early))
  | None, None => bool_decide (early = late)
  end.

Fixpoint routes_may_clash (early late : list string) : bool :=
  match early, late with
  | [], [] => true
  | e :: early', l :: late' => seg_may_match e l && routes_may_clash early' late'
  | _, _ => false
  end.

(** No pattern can take a path that belongs to a later pattern. *)
Fixpoint unshadowed (patterns : list (string * string)) : bool :=
  match patterns with
  | [] => true
  | (route, _) :: patterns' =>
      forallb (λ p, negb (routes_may_clash (split_on "/" route) (split_on "/" p.1)))
              patterns'
      && unshadowed patterns'
  end.

(** ** Text of numbers *)

Local Abbreviation chars := String.list_ascii_of_string.

(** A decimal digit. *)
Definition is_digit (c : ascii) : Prop := is_Some (digit_val c).

(** A text of ASCII characters only. *)
Definition ascii_only (s : string) : Prop :=
  Forall (λ c, (nat_of_ascii c < 128)%nat) (chars s).

(** The keys that the key column of the store can hold. *)
Definition in_key_range (k : Z) : Prop := - 2 ^ 63 <= k < 2 ^ 63.

(** ** Further invariants *)

(** [Book.isbn] is [unique=True]: two book rows of one ISBN are one row. *)
Definition isbn_unique (db : DB) : Prop :=
  ∀ k1 k2 b1 b2,
    tbl_book db !! k1 = Some b1 → tbl_book db !! k2 = Some b2 →
    book_isbn b1 = book_isbn b2 → k1 = k2.



(** What [BookForm] lets into a book row. *)
Definition book_fields_ok (b : Book) : Prop :=
  book_title b ≠ EmptyString ∧ (String.length (book_title b) ≤ 200)%nat ∧
  has_null (book_title b) = false ∧
  book_isbn b ≠ EmptyString ∧ (String.length (book_isbn b) ≤ 13)%nat ∧
  has_null (book_isbn b) = false ∧
  in_integer_range (book_publication_year b).

(** No row of [db] is removed or altered in [db']; a reading list may
    have gained books. *)
Definition rows_kept (db db' : DB) : Prop :=
  tbl_user db ⊆ tbl_user db' ∧ tbl_author db ⊆ tbl_author db' ∧
  tbl_book db ⊆ tbl_book db' ∧ tbl_review db ⊆ tbl_review db' ∧
  ∀ k l, tbl_reading_list db !! k = Some l →
    ∃ l', tbl_reading_list db' !! k = Some l' ∧
          rl_name l' = rl_name l ∧ rl_user l' = rl_user l ∧
          rl_description l' = rl_description l ∧
          rl_is_public l' = rl_is_public l ∧
          rl_created_at l' = rl_created_at l ∧ rl_books l ⊆ rl_books l'.

(** The number of rows of the store. *)
Definition row_count (db : DB) : nat :=
  (size (tbl_user db) + size (tbl_author db) + size (tbl_book db) +
   size (tbl_review db) + size (tbl_reading_list db))%nat.

(** What a view leaves of the store [db]: the rows of [db], and at most
    one row more. *)
Definition kept_plus_one (db db' : DB) : Prop :=
  rows_kept db db' ∧ (row_count db ≤ row_count db' ≤ S (row_count db))%nat.

(** What [AuthorForm] lets into an author row. *)
Definition author_fields_ok (a : Author) : Prop :=
  author_name a ≠ EmptyString ∧ (String.length (author_name a) ≤ 200)%nat.

(** ** Facts on rounding *)

Lemma round_half_even_near (x : Q) :
  (Qabs (inject_Z (round_half_even x) - x) <= 1 # 2)%Q.
Proof.
  destruct x as [n d]. unfold round_half_even. cbn [Qnum Qden].
  pose proof (Z.div_mod n (Z.pos d) ltac:(lia)) as Hdm.
  pose proof (Z.mod_pos_bound n (Z.pos d) ltac:(lia)) as Hb.
  set (f := n / Z.pos d) in *. set (r := n mod Z.pos d) in *.
  assert (Hgen : ∀ z : Z, Z.abs (2 * (z * Z.pos d - n)) <= Z.pos d →
    (Qabs (inject_Z z - (n # d)) <= 1 # 2)%Q).
  { intros z Hz. apply Qabs_Qle_condition.
    unfold Qle, Qminus, Qplus, Qopp, inject_Z; cbn. lia. }
  destruct (Z.compare_spec (2 * r) (Z.pos d)) as [He|Hl|Hg].
  - destruct (Z.even f); apply Hgen; nia.
  - apply Hgen; nia.
  - apply Hgen; nia.
Qed.

Lemma round_half_even_ge (x : Q) (z : Z) :
  (inject_Z z <= x)%Q → z <= round_half_even x.
Proof.
  destruct x as [n d]. unfold round_half_even, Qle, inject_Z. cbn.
  intros H.
  pose proof (Z.div_mod n (Z.pos d) ltac:(lia)) as Hdm.
  pose proof (Z.mod_pos_bound n (Z.pos d) ltac:(lia)) as Hb.
  assert (z <= n / Z.pos d) by (apply Z.div_le_lower_bound; lia).
  destruct (_ ?= _); [destruct (Z.even _)|..]; lia.
Qed.

Lemma round_half_even_le (x : Q) (z : Z) :
  (x <= inject_Z z)%Q → round_half_even x <= z.
Proof.
  destruct x as [n d]. unfold round_half_even, Qle, inject_Z. cbn.
  intros H.
  pose proof (Z.div_mod n (Z.pos d) ltac:(lia)) as Hdm.
  pose proof (Z.mod_pos_bound n (Z.pos d) ltac:(lia)) as Hb.
  set (f := n / Z.pos d) in *. set (r := n mod Z.pos d) in *.
  assert (f <= z) by nia.
  destruct (Z.compare_spec (2 * r) (Z.pos d)); [destruct (Z.even f)|..]; nia.
Qed.

Lemma py_round_2_rounded (x : Q) : rounded_to 2 x (py_round x 2).
Proof.
  unfold rounded_to, py_round. change (10 ^ Z.of_N 2) with 100.
  change (2 * 100) with 200.
  split; [by eexists|].
  pose proof (round_half_even_near (x * inject_Z 100)) as H.
  apply Qabs_Qle_condition in H. apply Qabs_Qle_condition.
  set (z := inject_Z (round_half_even (x * inject_Z 100))) in *.
  unfold Qdiv. change (/ inject_Z 100)%Q with (1 # 100)%Q.
  change (/ inject_Z 200)%Q with (1 # 200)%Q.
  change (inject_Z 100) with (100 # 1)%Q in *.
  lra.
Qed.

Lemma py_round_2_bounds (x : Q) (lo hi : Z) :
  (inject_Z lo <= x <= inject_Z hi)%Q →
  (inject_Z lo <= py_round x 2 <= inject_Z hi)%Q.
Proof.
  intros [Hlo Hhi]. unfold py_round. change (10 ^ Z.of_N 2) with 100.
  assert (lo * 100 <= round_half_even (x * inject_Z 100)) as H1.
  { apply round_half_even_ge. rewrite inject_Z_mult.
    change (inject_Z 100) with (100 # 1)%Q. lra. }
  assert (round_half_even (x * inject_Z 100) <= hi * 100) as H2.
  { apply round_half_even_le. rewrite inject_Z_mult.
    change (inject_Z 100) with (100 # 1)%Q. lra. }
  rewrite Zle_Qle, inject_Z_mult in H1. rewrite Zle_Qle, inject_Z_mult in H2.
  set (z := inject_Z (round_half_even (x * inject_Z 100))) in *.
  unfold Qdiv. change (/ inject_Z 100)%Q with (1 # 100)%Q.
  change (inject_Z 100) with (100 # 1)%Q in *.
  lra.
Qed.

(** ** Facts on floats *)

Lemma round_half_even_mono (x y : Q) :
  (x <= y)%Q → round_half_even x <= round_half_even y.
Proof.
  destruct x as [n1 d1], y as [n2 d2]. unfold round_half_even, Qle. cbn.
  intros H.
  pose proof (Z.div_mod n1 (Z.pos d1) ltac:(lia)) as Hdm1.
  pose proof (Z.mod_pos_bound n1 (Z.pos d1) ltac:(lia)) as Hb1.
  pose proof (Z.div_mod n2 (Z.pos d2) ltac:(lia)) as Hdm2.
  pose proof (Z.mod_pos_bound n2 (Z.pos d2) ltac:(lia)) as Hb2.
  set (f1 := n1 / Z.pos d1) in *. set (r1 := n1 mod Z.pos d1) in *.
  set (f2 := n2 / Z.pos d2) in *. set (r2 := n2 mod Z.pos d2) in *.
  assert (Hf : f1 <= f2).
  { destruct (Z_le_gt_dec f1 f2) as [|Hgt]; [done|]. exfalso.
    assert (Z.pos d1 * Z.pos d2 * (f2 + 1) <= Z.pos d1 * Z.pos d2 * f1)
      by (apply Z.mul_le_mono_nonneg_l; lia).
    nia. }
  destruct (Z.eq_dec f1 f2) as [He|Hne].
  - rewrite <- He in *. clear He.
    assert (Hr : r1 * Z.pos d2 <= r2 * Z.pos d1) by nia.
    destruct (Z.compare_spec (2 * r1) (Z.pos d1));
      destruct (Z.compare_spec (2 * r2) (Z.pos d2));
      destruct (Z.even f1); nia.
  - assert (f1 + 1 <= f2) by lia.
    destruct (Z.compare_spec (2 * r1) (Z.pos d1));
      destruct (Z.compare_spec (2 * r2) (Z.pos d2));
      destruct (Z.even f1); destruct (Z.even f2); lia.
Qed.

Lemma pow2_pos (k : Z) : (0 < 2 ^ k)%Q.
Proof. by apply Qpower_0_lt. Qed.

Lemma pow2_inject (k : Z) : 0 <= k → (2 ^ k == inject_Z (2 ^ k))%Q.
Proof. intros Hk. symmetry. exact (Zpower_Qpower 2 k Hk). Qed.

Lemma pow2_minus (a b : Z) :
  0 <= a → 0 <= b → (2 ^ (a - b) == inject_Z (2 ^ a) / inject_Z (2 ^ b))%Q.
Proof.
  intros Ha Hb. rewrite Qpower_minus by discriminate.
  by rewrite !pow2_inject.
Qed.

Lemma Zfrac_le (A B n : Z) (d : positive) :
  0 < B → A * Z.pos d <= n * B → (inject_Z A / inject_Z B <= n # d)%Q.
Proof.
  intros HB H. apply Qle_shift_div_r.
  - change 0%Q with (inject_Z 0). by rewrite <- Zlt_Qlt.
  - unfold Qle, Qmult, inject_Z. cbn. lia.
Qed.

Lemma Zfrac_gt (A B n : Z) (d : positive) :
  0 < B → n * B < A * Z.pos d → (n # d < inject_Z A / inject_Z B)%Q.
Proof.
  intros HB H. apply Qlt_shift_div_l.
  - change 0%Q with (inject_Z 0). by rewrite <- Zlt_Qlt.
  - unfold Qlt, Qmult, inject_Z. cbn. lia.
Qed.

Lemma ilog2_spec (x : Q) :
  (0 < x)%Q → (2 ^ ilog2 x <= x < 2 ^ (ilog2 x + 1))%Q.
Proof.
  destruct x as [n d]. intros Hx.
  assert (Hn : 0 < n) by (unfold Qlt in Hx; cbn in Hx; lia).
  unfold ilog2. cbn [Qnum Qden].
  pose proof (Z.log2_spec n Hn) as Ha.
  pose proof (Z.log2_spec (Z.pos d) ltac:(lia)) as Hb.
  pose proof (Z.log2_nonneg n) as Ha0.
  pose proof (Z.log2_nonneg (Z.pos d)) as Hb0.
  set (a := Z.log2 n) in *. set (b := Z.log2 (Z.pos d)) in *.
  rewrite !Z.pow_succ_r in * by lia.
  assert (HA : 0 < 2 ^ a) by (apply Z.pow_pos_nonneg; lia).
  assert (HB : 0 < 2 ^ b) by (apply Z.pow_pos_nonneg; lia).
  destruct (Qle_bool (2 ^ (a - b)) (n # d)) eqn:Hle.
  - apply Qle_bool_iff in Hle. split; [done|].
    replace (a - b + 1) with (Z.succ a - b) by lia.
    rewrite pow2_minus by lia. rewrite Z.pow_succ_r by lia.
    apply Zfrac_gt; nia.
  - split.
    + replace (a - b - 1) with (a - Z.succ b) by lia.
      rewrite pow2_minus by lia. rewrite Z.pow_succ_r by lia.
      apply Zfrac_le; nia.
    + replace (a - b - 1 + 1) with (a - b) by lia.
      apply Qnot_le_lt. intros H. apply Qle_bool_iff in H. congruence.
Qed.

Lemma ilog2_mono (x y : Q) : (0 < x)%Q → (x <= y)%Q → ilog2 x <= ilog2 y.
Proof.
  intros Hx Hxy.
  destruct (ilog2_spec x Hx) as [H1 _].
  destruct (ilog2_spec y) as [_ H2]; [lra|].
  assert (H : (2 ^ ilog2 x < 2 ^ (ilog2 y + 1))%Q) by lra.
  apply Qpower_lt_compat_l_inv in H; [lia|reflexivity].
Qed.

Lemma pow2_split (a b : Z) : (2 ^ a == 2 ^ (a - b) * 2 ^ b)%Q.
Proof.
  rewrite <- Qpower_plus by discriminate. by replace (a - b + b) with a by lia.
Qed.

Lemma float_near_mono (x y : Q) :
  (0 < x)%Q → (x <= y)%Q → (float_near x <= float_near y)%Q.
Proof.
  intros Hx Hxy. assert (Hy : (0 < y)%Q) by lra.
  pose proof (ilog2_mono x y Hx Hxy) as Hl.
  unfold float_near.
  set (ex := Z.max (ilog2 x) (-1022)). set (ey := Z.max (ilog2 y) (-1022)).
  pose proof (pow2_pos (ex - 52)) as Hux. pose proof (pow2_pos (ey - 52)) as Huy.
  destruct (Z.eq_dec ex ey) as [He|Hne].
  - rewrite <- He in *. apply Qmult_le_compat_r; [|lra].
    rewrite <- Zle_Qle. apply round_half_even_mono.
    apply Qle_shift_div_l; [done|]. unfold Qdiv.
    rewrite <- Qmult_assoc, (Qmult_comm (/ _)), Qmult_inv_r by lra. lra.
  - assert (Hlt : ex < ey) by lia.
    assert (Hey : ey = ilog2 y) by lia.
    destruct (ilog2_spec x Hx) as [_ Hxu]. destruct (ilog2_spec y Hy) as [Hyl _].
    rewrite <- Hey in Hyl.
    assert (HxB : (x <= 2 ^ ey)%Q).
    { apply Qlt_le_weak. eapply Qlt_le_trans; [exact Hxu|].
      apply Qpower_le_compat_l; [lia|discriminate]. }
    apply Qle_trans with (2 ^ ey)%Q.
    + rewrite (pow2_split ey (ex - 52)) at 1.
      apply Qmult_le_compat_r; [|lra].
      rewrite (pow2_inject (ey - (ex - 52))) by lia. rewrite <- Zle_Qle.
      apply round_half_even_le. rewrite <- pow2_inject by lia.
      apply Qle_shift_div_r; [done|]. by rewrite <- pow2_split.
    + rewrite (pow2_split ey (ey - 52)) at 1.
      apply Qmult_le_compat_r; [|lra].
      rewrite (pow2_inject (ey - (ey - 52))) by lia. rewrite <- Zle_Qle.
      apply round_half_even_ge. rewrite <- pow2_inject by lia.
      apply Qle_shift_div_l; [done|]. by rewrite <- pow2_split.
Qed.

Lemma float_near_nonneg (x : Q) : (0 < x)%Q → (0 <= float_near x)%Q.
Proof.
  intros Hx. unfold float_near.
  set (e := Z.max (ilog2 x) (-1022)). pose proof (pow2_pos (e - 52)) as Hu.
  apply Qmult_le_0_compat; [|lra].
  change 0%Q with (inject_Z 0). rewrite <- Zle_Qle.
  apply round_half_even_ge. change (inject_Z 0) with 0%Q.
  apply Qle_shift_div_l; [done|]. lra.
Qed.

Lemma float_pos_eq (x : Q) :
  float_pos x = if Qle_bool (2 ^ 1024) (float_near x) then (2 ^ 1024)%Q
                else float_near x.
Proof. reflexivity. Qed.

Lemma float_pos_mono (x y : Q) :
  (0 < x)%Q → (x <= y)%Q → (float_pos x <= float_pos y)%Q.
Proof.
  intros Hx Hxy. pose proof (float_near_mono x y Hx Hxy) as H.
  rewrite !float_pos_eq.
  destruct (Qle_bool _ (float_near x)) eqn:H1;
    destruct (Qle_bool _ (float_near y)) eqn:H2.
  - apply Qle_refl.
  - apply Qle_bool_iff in H1.
    assert (H3 : ~ (2 ^ 1024 <= float_near y)%Q).
    { intros H3. apply Qle_bool_iff in H3. congruence. }
    destruct H3. by apply Qle_trans with (float_near x).
  - assert (H3 : ~ (2 ^ 1024 <= float_near x)%Q).
    { intros H3. apply Qle_bool_iff in H3. congruence. }
    apply Qnot_le_lt in H3. by apply Qlt_le_weak.
  - done.
Qed.

Lemma float_pos_nonneg (x : Q) : (0 < x)%Q → (0 <= float_pos x)%Q.
Proof.
  intros Hx. rewrite float_pos_eq. destruct (Qle_bool _ _).
  - apply Qlt_le_weak, pow2_pos.
  - by apply float_near_nonneg.
Qed.

Lemma py_float_pos (x : Q) : (0 < x)%Q → py_float x = float_pos x.
Proof.
  destruct x as [[|n|n] d]; unfold Qlt; cbn; intros H; try lia. reflexivity.
Qed.

Lemma py_float_neg (x : Q) : (x < 0)%Q → py_float x = (- float_pos (- x))%Q.
Proof.
  destruct x as [[|n|n] d]; unfold Qlt; cbn; intros H; try lia. reflexivity.
Qed.

Lemma py_float_zero (x : Q) : (x == 0)%Q → py_float x = 0%Q.
Proof.
  destruct x as [[|n|n] d]; unfold Qeq; cbn; intros H; try lia. reflexivity.
Qed.

(** Rounding to the nearest float keeps the order. *)
Lemma py_float_mono (x y : Q) : (x <= y)%Q → (py_float x <= py_float y)%Q.
Proof.
  intros Hxy.
  destruct (Q_dec x 0) as [[Hx|Hx]|Hx]; destruct (Q_dec y 0) as [[Hy|Hy]|Hy];
    try lra.
  - rewrite !py_float_neg by done. apply Qopp_le_compat.
    apply float_pos_mono; lra.
  - rewrite py_float_neg, py_float_pos by done.
    pose proof (float_pos_nonneg (- x)). pose proof (float_pos_nonneg y). lra.
  - rewrite py_float_neg, py_float_zero by done.
    pose proof (float_pos_nonneg (- x)). lra.
  - rewrite !py_float_pos by done. by apply float_pos_mono.
  - rewrite py_float_zero, py_float_pos by done. by apply float_pos_nonneg.
  - rewrite !py_float_zero by done. apply Qle_refl.
Qed.



(** ** The aggregation helpers *)

Lemma ratings_nil (q : gmap Z Review) : ratings q = [] ↔ q = ∅.
Proof.
  unfold ratings. rewrite <- map_to_list_empty_iff.
  split; [apply fmap_nil_inv | by intros ->].
Qed.

Lemma sum_list_perm (xs ys : list Z) : xs ≡ₚ ys → sum_list xs = sum_list ys.
Proof.
  unfold sum_list. induction 1; simpl; lia.
Qed.

Lemma Avg_nonempty (xs : list Z) : xs ≠ [] → Avg xs = Some (mean xs).
Proof. by destruct xs. Qed.

Lemma Avg_perm (xs ys : list Z) : xs ≡ₚ ys → Avg xs = Avg ys.
Proof.
  intros Hp. destruct xs as [|x xs].
  - by apply Permutation_nil_l in Hp as ->.
  - destruct ys as [|y ys]; [by apply Permutation_nil_r in Hp|].
    unfold Avg. by rewrite (sum_list_perm _ _ Hp), (Permutation_length Hp).
Qed.

Lemma float_truthy_false (a : Q) : float_truthy a = false → (a == 0)%Q.
Proof.
  unfold float_truthy. intros H. apply Qeq_bool_eq.
  by destruct (Qeq_bool a 0).
Qed.

(** C1: [average_rating] is 0 for a book without reviews (and
    [review_count] is 0 then); for a book with reviews it is the arithmetic
    mean of the ratings rounded to 2 decimal places; for ratings 3 and 5 it
    is 4.0. *)
Theorem average_rating_correct (db : DB) (b : Z) :
  (reviews db b = ∅ →
     (average_rating db b == 0)%Q ∧ review_count db b = 0%nat) ∧
  (reviews db b ≠ ∅ →
     rounded_to 2 (mean (ratings (reviews db b))) (average_rating db b)) ∧
  (ratings (reviews db b) ≡ₚ [3; 5] → (average_rating db b == 4)%Q).
Proof.
  unfold average_rating, review_count. split; [|split].
  - intros ->. split; reflexivity.
  - intros Hne. rewrite Avg_nonempty by (by rewrite ratings_nil).
    destruct (float_truthy _) eqn:Ht; [apply py_round_2_rounded|].
    apply float_truthy_false in Ht. unfold rounded_to. split.
    + exists 0. reflexivity.
    + rewrite Ht. by vm_compute.
  - intros Hp. by rewrite (Avg_perm _ _ Hp).
Qed.

Lemma average_rating_correct_witness :
  ratings (reviews sample_db 1) ≡ₚ [3; 5] ∧
  (average_rating sample_db 1 == 4)%Q ∧
  reviews sample_db 3 = ∅ ∧
  (average_rating sample_db 3 == 0)%Q ∧ review_count sample_db 3 = 0%nat.
Proof.
  assert (H35 : ratings (reviews sample_db 1) ≡ₚ [3; 5])
    by (vm_compute; reflexivity).
  assert (H0 : reviews sample_db 3 = ∅) by (vm_compute; reflexivity).
  destruct (average_rating_correct sample_db 1) as (_ & _ & Hm).
  destruct (average_rating_correct sample_db 3) as (Hz & _ & _).
  split; [exact H35|]. split; [exact (Hm H35)|]. split; [exact H0|].
  exact (Hz H0).
Defined.

(** ** The managers *)

Lemma rows_Permutation {A} (table : gmap Z A) : rows table ≡ₚ map_to_list table.
Proof. apply merge_sort_Permutation. Qed.

Lemma elem_of_rows {A} (table : gmap Z A) (k : Z) (x : A) :
  (k, x) ∈ rows table ↔ table !! k = Some x.
Proof. rewrite rows_Permutation. apply elem_of_map_to_list. Qed.

Lemma NoDup_rows {A} (table : gmap Z A) : NoDup (rows table).
Proof. rewrite rows_Permutation. apply NoDup_map_to_list. Qed.

Lemma elem_of_Book_objects_all (db : DB) (k : Z) (b : Book) :
  (k, b) ∈ Book_objects_all db ↔ tbl_book db !! k = Some b.
Proof.
  unfold Book_objects_all. rewrite merge_sort_Permutation.
  apply elem_of_rows.
Qed.

Lemma NoDup_Book_objects_all (db : DB) : NoDup (Book_objects_all db).
Proof.
  unfold Book_objects_all. rewrite merge_sort_Permutation.
  apply NoDup_rows.
Qed.

Lemma elem_of_highly_rated (db : DB) (m : Q) (k : Z) (b : Book) (a : option Q) :
  (k, b, a) ∈ highly_rated db m ↔
  tbl_book db !! k = Some b ∧ a = py_float <$> Avg (ratings (reviews db k)) ∧
  sql_gte a (py_float m) = true.
Proof.
  unfold highly_rated, annotate_avg_rating.
  rewrite list_elem_of_filter, list_elem_of_fmap. simpl. split.
  - intros [Hg [[k' b'] [[= -> -> ->] Hin]]].
    by apply elem_of_rows in Hin.
  - intros (Hb & -> & Hg). split; [done|]. exists (k, b).
    by rewrite elem_of_rows.
Qed.

Lemma elem_of_highly_rated_books (db : DB) (m : Q) (k : Z) (b : Book) :
  (k, b) ∈ (highly_rated db m).*1 ↔
  tbl_book db !! k = Some b ∧ reviews db k ≠ ∅ ∧
  (py_float m <= py_float (mean (ratings (reviews db k))))%Q.
Proof.
  rewrite list_elem_of_fmap. split.
  - intros [[[k' b'] a] [[= <- <-] Hin]].
    apply elem_of_highly_rated in Hin as (Hb & -> & Hg).
    split; [done|]. destruct (ratings (reviews db k)) eqn:Hr; [done|].
    rewrite <- ratings_nil, Hr. split; [done|].
    by apply Qle_bool_iff in Hg.
  - intros (Hb & Hne & Hle).
    exists (k, b, py_float <$> Avg (ratings (reviews db k))).
    split; [done|]. apply elem_of_highly_rated. split_and!; [done..|].
    rewrite Avg_nonempty by (by rewrite ratings_nil).
    by apply Qle_bool_iff.
Qed.




(** In the sample store [average_rating] of book 2 is 3.67, and
    [highly_rated(3.67)] is book 1 alone. *)
Example highly_rated_sample :
  (average_rating sample_db 2 == 367 # 100)%Q ∧
  (highly_rated sample_db (367 # 100)).*1.*1 = [1].
Proof. split; [by vm_compute|vm_compute; reflexivity]. Qed.

Lemma Book_objects_all_Permutation (db : DB) :
  Book_objects_all db ≡ₚ map_to_list (tbl_book db).
Proof.
  unfold Book_objects_all. by rewrite merge_sort_Permutation, rows_Permutation.
Qed.

(** C10: [published()] is [all()]: it returns every row of the book table,
    each once, and nothing else. *)
Theorem published_all (db : DB) :
  published db = Book_objects_all db ∧
  published db ≡ₚ map_to_list (tbl_book db) ∧
  (∀ k b, (k, b) ∈ published db ↔ tbl_book db !! k = Some b) ∧
  length (published db) = size (tbl_book db).
Proof.
  unfold published. split_and!.
  - done.
  - apply Book_objects_all_Permutation.
  - apply elem_of_Book_objects_all.
  - rewrite Book_objects_all_Permutation. apply length_map_to_list.
Qed.

(** ** Ownership-scoped retrieval *)




(** ** Pagination *)

Lemma length_slice {A} (l : list A) (lo hi : Z) :
  (length (slice l lo hi) ≤ Z.to_nat (hi - lo))%nat.
Proof. unfold slice. rewrite length_take. lia. Qed.

Lemma slice_subseteq {A} (l : list A) (lo hi : Z) : slice l lo hi ⊆ l.
Proof.
  unfold slice. etrans; [apply subseteq_take|apply subseteq_drop].
Qed.

Lemma Paginator_page_size {A} (l page : list A) (per_page number : Z) :
  0 <= per_page →
  Paginator_page l per_page number = Some page →
  (length page ≤ Z.to_nat per_page)%nat ∧ page ⊆ l.
Proof.
  unfold Paginator_page. intros Hpos H.
  repeat case_decide; simplify_eq; (split; [|apply slice_subseteq]);
    etrans; [apply length_slice| |apply length_slice|]; lia.
Qed.

Lemma paginate_queryset_size {A} (l page : list A) (page_size : Z) v :
  0 <= page_size →
  paginate_queryset l page_size v = Some page →
  (length page ≤ Z.to_nat page_size)%nat ∧ page ⊆ l.
Proof.
  unfold paginate_queryset. intros Hpos H.
  apply bind_Some in H as (n & _ & H). by eapply Paginator_page_size.
Qed.

(** C8: whatever the request and the store, a page that the book listing
    renders holds at most 12 books of the store, and a page that the author
    listing renders holds at most 20 authors of the store. *)
Theorem listing_page_sizes (request : HttpRequest) (db : DB) :
  (∀ t page, BookListView request db = Render t page →
     (length page ≤ 12)%nat ∧
     ∀ k b, (k, b) ∈ page → tbl_book db !! k = Some b) ∧
  (∀ t page, AuthorListView request db = Render t page →
     (length page ≤ 20)%nat ∧
     ∀ k a, (k, a) ∈ page → tbl_author db !! k = Some a).
Proof.
  split; intros t page; unfold BookListView, AuthorListView;
    destruct (paginate_queryset _ _ _) as [p|] eqn:Hp; intros [= _ ->];
    apply paginate_queryset_size in Hp as [Hlen Hsub]; try lia;
    (split; [exact Hlen|]); intros k x Hin; apply Hsub in Hin.
  - by apply elem_of_Book_objects_all.
  - by apply elem_of_rows.
Qed.

(** Thirteen books: twelve on page 1, one on page 2 (also as [last]), no
    page 3. *)
Example BookListView_pages :
  let db := add_books 10 sample_db in
  page_of (BookListView (get_as 1 [] 200) db)
    = Some [13; 12; 11; 10; 9; 8; 7; 6; 5; 4; 3; 2] ∧
  page_of (BookListView (get_as 1 [("page", "2")]%string 200) db) = Some [1] ∧
  page_of (BookListView (get_as 1 [("page", "last")]%string 200) db) = Some [1] ∧
  page_of (BookListView (get_as 1 [("page", "3")]%string 200) db) = None ∧
  page_of (BookListView (get_as 1 [("page", "0")]%string 200) db) = None.
Proof. vm_compute. split_and!; reflexivity. Qed.

(** ** The store keeps its invariants *)

Lemma foldr_max_elem (l : list Z) (z : Z) : z ∈ l → z <= foldr Z.max 0 l.
Proof.
  induction l as [|y l IH]; [by rewrite elem_of_nil|].
  rewrite elem_of_cons; simpl. intros [->|Hz]; [lia|].
  specialize (IH Hz). lia.
Qed.

(** A new key is above the keys of the table. *)
Lemma fresh_pk_above {A} (seq : Z) (table : gmap Z A) (k : Z) :
  is_Some (table !! k) → k < fresh_pk seq table.
Proof.
  intros [x Hx].
  assert (Hin : k ∈ (map_to_list table).*1).
  { apply list_elem_of_fmap. exists (k, x). by rewrite elem_of_map_to_list. }
  apply foldr_max_elem in Hin. unfold fresh_pk. lia.
Qed.

Lemma fresh_pk_None {A} (seq : Z) (table : gmap Z A) :
  table !! fresh_pk seq table = None.
Proof.
  destruct (table !! fresh_pk seq table) as [x|] eqn:Hx; [|done]. exfalso.
  pose proof (fresh_pk_above seq table (fresh_pk seq table) ltac:(by eexists)).
  lia.
Qed.

Lemma request_user_Some (db : DB) (request : HttpRequest) (u : Z) :
  request_user db request = Some u → u ∈ tbl_user db.
Proof.
  unfold request_user. destruct (session_user request); [|done].
  case_decide; naive_solver.
Qed.

Lemma ModelChoiceField_clean_Some {A} (table : gmap Z A) v k :
  ModelChoiceField_clean table v = Some k → is_Some (table !! k).
Proof.
  unfold ModelChoiceField_clean. intros H.
  apply bind_Some in H as (s & _ & H). apply bind_Some in H as (k' & _ & H).
  case_decide; naive_solver.
Qed.

Lemma ModelMultipleChoiceField_clean_Some {A} (table : gmap Z A) vs ks b :
  ModelMultipleChoiceField_clean table vs = Some ks → b ∈ ks →
  is_Some (table !! b).
Proof.
  unfold ModelMultipleChoiceField_clean. intros H Hb.
  apply fmap_Some in H as (l & Hm & ->). apply elem_of_list_to_set in Hb.
  apply mapM_Some in Hm. revert b Hb.
  induction Hm as [|s k vs l Hk _ IH]; intros b; [by rewrite elem_of_nil|].
  rewrite elem_of_cons. intros [->|Hb]; [|by apply IH].
  apply bind_Some in Hk as (k' & _ & Hk). case_decide; [|done].
  simplify_eq. tauto.
Qed.

Lemma ChoiceField_clean_Some (choices : list (Z * string)) v k :
  ChoiceField_clean choices v = Some k → k ∈ choices.*1.
Proof.
  unfold ChoiceField_clean. intros H.
  apply bind_Some in H as (s & _ & H). apply fmap_Some in H as (c & Hc & ->).
  apply head_Some_elem_of, list_elem_of_filter in Hc as [_ Hc].
  by apply list_elem_of_fmap_2.
Qed.

Lemma ReviewForm_clean_rating (data : QueryDict) rating text :
  ReviewForm_clean data = Some (rating, text) → rating ∈ RATING_CHOICES.*1.
Proof.
  unfold ReviewForm_clean. intros H.
  apply bind_Some in H as (r & Hr & H). apply bind_Some in H as (t & _ & H).
  simplify_eq. by eapply ChoiceField_clean_Some.
Qed.

(** *** Foreign keys *)

Lemma fk_ok_empty : fk_ok empty_db.
Proof. constructor; simpl; intros *; by rewrite ?lookup_empty. Qed.

Lemma fk_ok_Review_save (db db' : DB) (r : Review) :
  fk_ok db → is_Some (tbl_book db !! review_book r) →
  review_user r ∈ tbl_user db → Review_save db r = inr db' → fk_ok db'.
Proof.
  intros [Hba Hrb Hru Hlu Hlb] Hb Hu. unfold Review_save.
  case_decide; [done|]. intros [= <-]. constructor; simpl; try done.
  - intros k r'. rewrite lookup_insert_Some. intros [[_ <-]|[_ Hr]]; eauto.
  - intros k r'. rewrite lookup_insert_Some. intros [[_ <-]|[_ Hr]]; eauto.
Qed.

Lemma fk_ok_Author_save (db : DB) (a : Author) :
  fk_ok db → fk_ok (Author_save db a).
Proof.
  intros [Hba Hrb Hru Hlu Hlb]. constructor; simpl; try done.
  intros k b Hb. apply Hba in Hb. rewrite lookup_insert_is_Some'. tauto.
Qed.

Lemma fk_ok_Book_save (db : DB) (b : Book) :
  fk_ok db → is_Some (tbl_author db !! book_author b) →
  fk_ok (Book_save db b).
Proof.
  intros [Hba Hrb Hru Hlu Hlb] Ha. constructor; simpl; try done.
  - intros k b'. rewrite lookup_insert_Some. intros [[_ <-]|[_ Hb']]; eauto.
  - intros k r Hr. apply Hrb in Hr. rewrite lookup_insert_is_Some'. tauto.
  - intros k l x Hl Hx. rewrite lookup_insert_is_Some'. eauto.
Qed.

Lemma fk_ok_ReadingList_save (db : DB) (l : ReadingList) :
  fk_ok db → rl_user l ∈ tbl_user db →
  (∀ b, b ∈ rl_books l → is_Some (tbl_book db !! b)) →
  fk_ok (ReadingList_save db l).2.
Proof.
  intros [Hba Hrb Hru Hlu Hlb] Hu Hbs. constructor; simpl; try done.
  - intros k l'. rewrite lookup_insert_Some. intros [[_ <-]|[_ Hl']]; eauto.
  - intros k l' b. rewrite lookup_insert_Some. intros [[_ <-]|[_ Hl']]; eauto.
Qed.

Lemma fk_ok_ReadingList_books_add (db : DB) (pk book : Z) :
  fk_ok db → is_Some (tbl_book db !! book) →
  fk_ok (ReadingList_books_add db pk book).
Proof.
  intros [Hba Hrb Hru Hlu Hlb] Hb. constructor; simpl; try done.
  - intros k l. rewrite lookup_alter_Some.
    intros [(-> & l0 & Hl0 & ->)|[_ Hl]]; simpl; eauto.
  - intros k l b. rewrite lookup_alter_Some.
    intros [(-> & l0 & Hl0 & ->)|[_ Hl]]; simpl; [|eauto].
    rewrite elem_of_union, elem_of_singleton. intros [->|Hin]; eauto.
Qed.

Lemma fk_ok_User_create (db : DB) : fk_ok db → fk_ok (User_create db).
Proof.
  intros [Hba Hrb Hru Hlu Hlb]. constructor; simpl; try done.
  - intros k r Hr. apply Hru in Hr. set_solver.
  - intros k l Hl. apply Hlu in Hl. set_solver.
Qed.

Lemma fk_ok_delete_books (db : DB) (gone : gset Z) :
  fk_ok db → fk_ok (delete_books db gone).
Proof.
  intros [Hba Hrb Hru Hlu Hlb]. constructor; simpl.
  - intros k b. rewrite map_lookup_filter_Some. intros [Hb _]. eauto.
  - intros k r. rewrite map_lookup_filter_Some. simpl. intros [Hr Hg].
    destruct (Hrb _ _ Hr) as [b Hb]. exists b.
    by apply map_lookup_filter_Some.
  - intros k r. rewrite map_lookup_filter_Some. intros [Hr _]. eauto.
  - intros k l. rewrite lookup_fmap_Some. intros (l0 & <- & Hl0). simpl. eauto.
  - intros k l b. rewrite lookup_fmap_Some. intros (l0 & <- & Hl0). simpl.
    rewrite elem_of_difference. intros [Hb Hg].
    destruct (Hlb _ _ _ Hl0 Hb) as [x Hx]. exists x.
    by apply map_lookup_filter_Some.
Qed.

Lemma fk_ok_Author_delete (db : DB) (pk : Z) :
  fk_ok db → fk_ok (Author_delete db pk).
Proof.
  intros H. pose proof (fk_ok_delete_books db
    (dom (filter (λ kb, book_author kb.2 = pk) (tbl_book db))) H)
    as [Hba Hrb Hru Hlu Hlb].
  unfold Author_delete. constructor; simpl; try done.
  intros k b Hb. rewrite lookup_delete_is_Some. split; [|by eapply Hba].
  simpl in Hb. apply map_lookup_filter_Some in Hb as [Hb Hg]. simpl in Hg.
  intros Heq. apply Hg, elem_of_dom. exists b.
  by apply map_lookup_filter_Some.
Qed.

Lemma fk_ok_User_delete (db : DB) (pk : Z) :
  fk_ok db → fk_ok (User_delete db pk).
Proof.
  intros [Hba Hrb Hru Hlu Hlb]. constructor; simpl; try done.
  - intros k r. rewrite map_lookup_filter_Some. intros [Hr _]. eauto.
  - intros k r. rewrite map_lookup_filter_Some. simpl. intros [Hr Hne].
    apply Hru in Hr. set_solver.
  - intros k l. rewrite map_lookup_filter_Some. simpl. intros [Hl Hne].
    apply Hlu in Hl. set_solver.
  - intros k l b. rewrite map_lookup_filter_Some. intros [Hl _]. eauto.
Qed.

Lemma fk_ok_Review_delete (db : DB) (pk : Z) :
  fk_ok db → fk_ok (Review_delete db pk).
Proof.
  intros [Hba Hrb Hru Hlu Hlb]. constructor; simpl; try done.
  - intros k r. rewrite lookup_delete_Some. intros [_ Hr]. eauto.
  - intros k r. rewrite lookup_delete_Some. intros [_ Hr]. eauto.
Qed.

Lemma fk_ok_ReadingList_delete (db : DB) (pk : Z) :
  fk_ok db → fk_ok (ReadingList_delete db pk).
Proof.
  intros [Hba Hrb Hru Hlu Hlb]. constructor; simpl; try done.
  - intros k l. rewrite lookup_delete_Some. intros [_ Hl]. eauto.
  - intros k l b. rewrite lookup_delete_Some. intros [_ Hl]. eauto.
Qed.

Lemma fk_ok_add_review (db : DB) request book_id :
  fk_ok db → fk_ok (add_review request book_id db).2.
Proof.
  intros H. unfold add_review.
  destruct (request_user db request) as [user|] eqn:Hu; [|done].
  destruct (tbl_book db !! book_id) eqn:Hb; [|done].
  destruct (method request); [done|].
  destruct (ReviewForm_clean _) as [[rating text]|]; [|done].
  destruct (Review_save _ _) as [e|db'] eqn:Hs; [done|]. simpl.
  eapply fk_ok_Review_save; [done| | |done]; simpl;
    eauto using request_user_Some.
Qed.

Lemma fk_ok_add_to_reading_list (db : DB) request book_id :
  fk_ok db → fk_ok (add_to_reading_list request book_id db).2.
Proof.
  intros H. unfold add_to_reading_list.
  destruct (request_user db request) as [user|] eqn:Hu; [|done].
  destruct (tbl_book db !! book_id) eqn:Hb; [|done].
  destruct (method request); [done|].
  destruct (truthy (QueryDict_get _ "reading_list")) as [id|].
  - destruct (py_int id); [|done]. destruct (get_ReadingList _ _ _); [|done].
    simpl. by apply fk_ok_ReadingList_books_add.
  - destruct (truthy _) as [name|]; [|done].
    destruct (ReadingList_save _ _) as [pk db'] eqn:Hs. simpl.
    assert (fk_ok db') as H'.
    { change db' with (pk, db').2. rewrite <- Hs.
      apply fk_ok_ReadingList_save; simpl;
        [done|by eapply request_user_Some|set_solver]. }
    apply fk_ok_ReadingList_books_add; [done|].
    unfold ReadingList_save in Hs. simplify_eq. simpl. by rewrite Hb.
Qed.

Lemma BookForm_clean_author (db : DB) request b :
  BookForm_clean db request = Some b → is_Some (tbl_author db !! book_author b).
Proof.
  unfold BookForm_clean. intros H.
  apply bind_Some in H as (title & _ & H).
  apply bind_Some in H as (author & Ha & H).
  apply bind_Some in H as (isbn & _ & H).
  apply bind_Some in H as (year & _ & H).
  apply bind_Some in H as (descr & _ & H).
  apply bind_Some in H as (cover & _ & H).
  case_decide; [done|]. simplify_eq. simpl.
  by eapply ModelChoiceField_clean_Some.
Qed.

Lemma fk_ok_AddBookView (db : DB) request :
  fk_ok db → fk_ok (AddBookView request db).2.
Proof.
  intros H. unfold AddBookView.
  destruct (request_user db request); [|done].
  destruct (method request); [done|].
  destruct (BookForm_clean _ _) eqn:Hf; [|done]. simpl.
  apply fk_ok_Book_save; [done|]. by eapply BookForm_clean_author.
Qed.

Lemma fk_ok_AddAuthorView (db : DB) request :
  fk_ok db → fk_ok (AddAuthorView request db).2.
Proof.
  intros H. unfold AddAuthorView.
  destruct (request_user db request); [|done].
  destruct (method request); [done|].
  destruct (AuthorForm_clean _); [|done]. by apply fk_ok_Author_save.
Qed.

Lemma fk_ok_CreateReadingListView (db : DB) request :
  fk_ok db → fk_ok (CreateReadingListView request db).2.
Proof.
  intros H. unfold CreateReadingListView.
  destruct (request_user db request) as [user|] eqn:Hu; [|done].
  destruct (method request); [done|].
  destruct (ReadingListForm_clean _ _ _) as [l|] eqn:Hf; [|done].
  cbn [snd]. unfold ReadingListForm_clean in Hf.
  apply bind_Some in Hf as (name & _ & Hf).
  apply bind_Some in Hf as (descr & _ & Hf).
  apply bind_Some in Hf as (books & Hbs & Hf). simplify_eq.
  apply fk_ok_ReadingList_save; simpl; [done|by eapply request_user_Some|].
  intros b Hb. by eapply ModelMultipleChoiceField_clean_Some.
Qed.

Lemma fk_ok_step (db db' : DB) : step db db' → fk_ok db → fk_ok db'.
Proof.
  destruct 1; intros H;
    auto using fk_ok_add_review, fk_ok_add_to_reading_list, fk_ok_AddBookView,
      fk_ok_AddAuthorView, fk_ok_CreateReadingListView, fk_ok_User_create,
      fk_ok_Author_delete, fk_ok_User_delete, fk_ok_Review_delete,
      fk_ok_ReadingList_delete.
  by apply fk_ok_delete_books.
Qed.

Lemma reachable_fk_ok (db : DB) : reachable db → fk_ok db.
Proof.
  unfold reachable. revert db.
  apply rtc_ind_r; [apply fk_ok_empty|].
  intros db1 db2 _ Hst IH. by eapply fk_ok_step.
Qed.

(** *** The review table *)

(** What [add_review] does, case by case. *)
Lemma add_review_cases (db : DB) request book_id :
  add_review request book_id db = (RedirectLogin, db) ∨
  add_review request book_id db = (Http404, db) ∨
  add_review request book_id db = (Render "core/add_review.html" (), db) ∨
  (∃ user rating text,
     request_user db request = Some user ∧ is_Some (tbl_book db !! book_id) ∧
     method request = POST ∧
     ReviewForm_clean (POST_data request) = Some (rating, text) ∧
     let review :=
       mkReview book_id user rating text (now request) (now_again request) in
     let pk := fresh_pk (seq_of db "Review") (tbl_review db) in
     (review_pair_taken db book_id user ∧
        add_review request book_id db = (ServerError IntegrityError, db)) ∨
     (¬ review_pair_taken db book_id user ∧
        add_review request book_id db =
          (Redirect "book-detail" (Some book_id),
           mkDB (tbl_user db) (tbl_author db) (tbl_book db)
                (<[pk := review]> (tbl_review db)) (tbl_reading_list db)
                (<["Review"%string := pk]> (key_seq db))))).
Proof.
  unfold add_review.
  destruct (request_user db request) as [user|] eqn:Hu; [|by left].
  destruct (tbl_book db !! book_id) eqn:Hb; [|by right; left].
  destruct (method request) eqn:Hm; [by right; right; left|].
  destruct (ReviewForm_clean _) as [[rating text]|] eqn:Hf;
    [|by right; right; left].
  right; right; right. exists user, rating, text.
  split_and!; [done..|]. unfold Review_save. simpl.
  case_decide; [left|right]; done.
Qed.

Lemma tbl_review_add_to_reading_list (db : DB) request book_id :
  tbl_review (add_to_reading_list request book_id db).2 = tbl_review db.
Proof.
  unfold add_to_reading_list, ReadingList_save.
  repeat case_match; by simplify_eq.
Qed.

Lemma tbl_review_AddBookView (db : DB) request :
  tbl_review (AddBookView request db).2 = tbl_review db.
Proof. unfold AddBookView. by repeat case_match. Qed.

Lemma tbl_review_AddAuthorView (db : DB) request :
  tbl_review (AddAuthorView request db).2 = tbl_review db.
Proof. unfold AddAuthorView. by repeat case_match. Qed.

Lemma tbl_review_CreateReadingListView (db : DB) request :
  tbl_review (CreateReadingListView request db).2 = tbl_review db.
Proof. unfold CreateReadingListView. by repeat case_match. Qed.

(** A review row after one operation was there before, or [add_review] has
    just stored it: under a new key, with a rating among the choices, for a
    pair that had no review. *)
Lemma step_reviews (db db' : DB) (k : Z) (r : Review) :
  step db db' → tbl_review db' !! k = Some r →
  tbl_review db !! k = Some r ∨
  (k = fresh_pk (seq_of db "Review") (tbl_review db) ∧
   review_rating r ∈ RATING_CHOICES.*1 ∧
   ¬ review_pair_taken db (review_book r) (review_user r)).
Proof.
  destruct 1 as [request book_id db| | | | | | | | | |].
  - destruct (add_review_cases db request book_id)
      as [->|[->|[->|(u & rating & text & _ & _ & _ & Hf & [[_ ->]|[Hn ->]])]]];
      simpl; auto.
    rewrite lookup_insert_Some. intros [[<- <-]|[_ Hr]]; [right|by left].
    simpl. split_and!; [done| |done]. by eapply ReviewForm_clean_rating.
  - rewrite tbl_review_add_to_reading_list. auto.
  - rewrite tbl_review_AddBookView. auto.
  - rewrite tbl_review_AddAuthorView. auto.
  - rewrite tbl_review_CreateReadingListView. auto.
  - auto.
  - simpl. rewrite map_lookup_filter_Some. intros [Hr _]. auto.
  - simpl. rewrite map_lookup_filter_Some. intros [Hr _]. auto.
  - simpl. rewrite map_lookup_filter_Some. intros [Hr _]. auto.
  - simpl. rewrite lookup_delete_Some. intros [_ Hr]. auto.
  - auto.
Qed.

Lemma review_unique_step (db db' : DB) :
  step db db' → review_unique db → review_unique db'.
Proof.
  intros Hst Hun k1 k2 r1 r2 H1 H2 Hb Hu.
  destruct (step_reviews _ _ _ _ Hst H1) as [H1'|(-> & _ & Hn1)];
    destruct (step_reviews _ _ _ _ Hst H2) as [H2'|(-> & _ & Hn2)].
  - by eapply Hun.
  - destruct Hn2. exists k1, r1. by rewrite <- Hb, <- Hu.
  - destruct Hn1. exists k2, r2. by rewrite Hb, Hu.
  - done.
Qed.

Lemma reachable_review_unique (db : DB) : reachable db → review_unique db.
Proof.
  unfold reachable. revert db. apply rtc_ind_r.
  - intros k1 k2 r1 r2 H1. simpl in H1. by rewrite lookup_empty in H1.
  - intros db1 db2 _ Hst IH. by eapply review_unique_step.
Qed.

Lemma reachable_ratings_ok (db : DB) : reachable db → ratings_ok db.
Proof.
  unfold reachable. revert db. apply rtc_ind_r.
  - intros k r H. simpl in H. by rewrite lookup_empty in H.
  - intros db1 db2 _ Hst IH k r Hr.
    destruct (step_reviews _ _ _ _ Hst Hr) as [Hr'|(_ & Hc & _)]; eauto.
Qed.

(** *** The sample stores are reachable *)

Lemma reachable_sample_users : reachable sample_users.
Proof.
  unfold reachable, sample_users.
  do 3 (eapply rtc_r; [|apply step_user_create]). apply rtc_refl.
Qed.

Lemma reachable_sample_catalog : reachable sample_catalog.
Proof.
  unfold reachable, sample_catalog.
  do 3 (eapply rtc_r; [|apply step_add_book]).
  eapply rtc_r; [|apply step_add_author]. apply reachable_sample_users.
Qed.

Lemma reachable_sample_first_review : reachable sample_first_review.
Proof.
  unfold reachable, sample_first_review.
  eapply rtc_r; [|apply step_add_review]. apply reachable_sample_catalog.
Qed.

Lemma reachable_sample_reviews : reachable sample_reviews.
Proof.
  unfold reachable, sample_reviews.
  do 4 (eapply rtc_r; [|apply step_add_review]).
  apply reachable_sample_first_review.
Qed.

Lemma reachable_sample_db : reachable sample_db.
Proof.
  unfold reachable, sample_db.
  eapply rtc_r; [|apply step_create_reading_list].
  eapply rtc_r; [|apply step_add_to_reading_list].
  apply reachable_sample_reviews.
Qed.


(** ** Review submission *)

(** C3: in every store the operations build, a (book, user) pair has at
    most one review row; a valid review submitted for a pair that already
    has one fails with [IntegrityError], and whatever is submitted for such
    a pair, the store, and so the first review, stays as it was. *)
Theorem second_review_rejected (db : DB) (request : HttpRequest)
    (book_id user k : Z) (r : Review) :
  reachable db →
  request_user db request = Some user → method request = POST →
  tbl_review db !! k = Some r → review_book r = book_id → review_user r = user →
  review_unique db ∧
  (is_Some (ReviewForm_clean (POST_data request)) →
     add_review request book_id db = (ServerError IntegrityError, db)) ∧
  (add_review request book_id db).2 = db ∧
  tbl_review (add_review request book_id db).2 !! k = Some r.
Proof.
  intros Hre Hu Hm Hr Hb Hus.
  assert (Htaken : review_pair_taken db book_id user) by (by exists k, r).
  destruct (reachable_fk_ok db Hre) as [_ Hrb _ _ _].
  destruct (Hrb _ _ Hr) as [b Hbk]. rewrite Hb in Hbk.
  assert (Hsame : (add_review request book_id db).2 = db).
  { unfold add_review, Review_save. rewrite Hu, Hbk, Hm.
    destruct (ReviewForm_clean _) as [[rating text]|]; [|done].
    simpl. by rewrite decide_True. }
  split_and!; [by apply reachable_review_unique| |done|by rewrite Hsame].
  intros [[rating text] Hf]. unfold add_review, Review_save.
  rewrite Hu, Hbk, Hm, Hf. simpl. by rewrite decide_True.
Qed.

Lemma second_review_rejected_witness :
  add_review (review_as 1 25 "3") 1 sample_first_review
    = (ServerError IntegrityError, sample_first_review) ∧
  tbl_review (add_review (review_as 1 25 "3") 1 sample_first_review).2 !! 1
    = Some (mkReview 1 1 5 "Read it." 20 21).
Proof.
  destruct (second_review_rejected sample_first_review (review_as 1 25 "3")
              1 1 1 (mkReview 1 1 5 "Read it." 20 21))
    as (_ & Hfail & _ & Hkept).
  - exact reachable_sample_first_review.
  - vm_compute; reflexivity.
  - reflexivity.
  - vm_compute; reflexivity.
  - reflexivity.
  - reflexivity.
  - split; [|exact Hkept]. apply Hfail. vm_compute. eexists. reflexivity.
Defined.

(** ** Adding a book to a reading list *)

(** C5: on a POST of a logged-in user for an existing book, with the key of
    an existing reading list: the answer is [Http404] and nothing changes
    when the list belongs to somebody else; otherwise the book joins that
    list, and nothing else changes. With neither a list key nor a new list
    name, nothing changes and the answer redirects to the book's detail
    page. *)
Theorem add_to_reading_list_existing (db : DB) (request : HttpRequest)
    (book_id user : Z) :
  request_user db request = Some user → method request = POST →
  is_Some (tbl_book db !! book_id) →
  (∀ id pk l,
     truthy (QueryDict_get (POST_data request) "reading_list") = Some id →
     py_int id = Some pk → tbl_reading_list db !! pk = Some l →
     (rl_user l ≠ user →
        add_to_reading_list request book_id db = (Http404, db)) ∧
     (rl_user l = user →
        let db' := (add_to_reading_list request book_id db).2 in
        (add_to_reading_list request book_id db).1
          = Redirect "book-detail" (Some book_id) ∧
        tbl_reading_list db' !! pk
          = Some (mkReadingList (rl_name l) (rl_user l) ({[book_id]} ∪ rl_books l)
                    (rl_description l) (rl_is_public l) (rl_created_at l)) ∧
        (∀ k, k ≠ pk → tbl_reading_list db' !! k = tbl_reading_list db !! k) ∧
        tbl_user db' = tbl_user db ∧ tbl_author db' = tbl_author db ∧
        tbl_book db' = tbl_book db ∧ tbl_review db' = tbl_review db)) ∧
  (truthy (QueryDict_get (POST_data request) "reading_list") = None →
   truthy (QueryDict_get (POST_data request) "new_list_name") = None →
   add_to_reading_list request book_id db
     = (Redirect "book-detail" (Some book_id), db)).
Proof.
  intros Hu Hm [b Hb]. unfold add_to_reading_list. rewrite Hu, Hb, Hm. split.
  - intros id pk l -> -> Hl. unfold get_ReadingList. rewrite Hl. simpl. split.
    + intros Hne. by rewrite decide_False.
    + intros Heq. rewrite decide_True by done. simpl. split_and!; try done.
      * by rewrite lookup_alter_eq, Hl.
      * intros k Hk. by rewrite lookup_alter_ne.
  - by intros -> ->.
Qed.

Lemma add_to_reading_list_existing_witness :
  add_to_reading_list (post_as 2 [("reading_list", "1")]%string 40) 1 sample_db
    = (Http404, sample_db) ∧
  add_to_reading_list (post_as 2 [] 40) 1 sample_db
    = (Redirect "book-detail" (Some 1), sample_db).
Proof.
  assert (Hl : ∃ l, tbl_reading_list sample_db !! 1 = Some l ∧ rl_user l ≠ 2).
  { vm_compute. eexists. split; [reflexivity|discriminate]. }
  destruct Hl as (l & Hl & Ho).
  assert (Hb : is_Some (tbl_book sample_db !! 1))
    by (vm_compute; eexists; reflexivity).
  split.
  - destruct (add_to_reading_list_existing sample_db
                (post_as 2 [("reading_list", "1")]%string 40) 1 2)
      as [Hex _]; [vm_compute; reflexivity|reflexivity|exact Hb|].
    destruct (Hex "1"%string 1 l) as [H404 _];
      [vm_compute; reflexivity|vm_compute; reflexivity|exact Hl|].
    exact (H404 Ho).
  - destruct (add_to_reading_list_existing sample_db (post_as 2 [] 40) 1 2)
      as [_ Hno]; [vm_compute; reflexivity|reflexivity|exact Hb|].
    apply Hno; vm_compute; reflexivity.
Defined.

(** C6: on a POST of a logged-in user for an existing book, with no list
    key and a non-empty new list name, the store gains one reading list
    under a key that no list had: its name is the one supplied, its owner
    is the caller, and its books are exactly that one book; the other lists
    and the other tables stay. *)
Theorem add_to_reading_list_new (db : DB) (request : HttpRequest)
    (book_id user : Z) (name : string) :
  request_user db request = Some user → method request = POST →
  is_Some (tbl_book db !! book_id) →
  truthy (QueryDict_get (POST_data request) "reading_list") = None →
  truthy (QueryDict_get (POST_data request) "new_list_name") = Some name →
  let db' := (add_to_reading_list request book_id db).2 in
  (add_to_reading_list request book_id db).1
    = Redirect "book-detail" (Some book_id) ∧
  (∃ pk l,
     tbl_reading_list db !! pk = None ∧
     tbl_reading_list db' !! pk = Some l ∧ rl_name l = name ∧
     rl_user l = user ∧ rl_books l = {[book_id]} ∧
     ∀ k, k ≠ pk → tbl_reading_list db' !! k = tbl_reading_list db !! k) ∧
  size (tbl_reading_list db') = S (size (tbl_reading_list db)) ∧
  tbl_user db' = tbl_user db ∧ tbl_author db' = tbl_author db ∧
  tbl_book db' = tbl_book db ∧ tbl_review db' = tbl_review db.
Proof.
  intros Hu Hm [b Hb] Hid Hname. unfold add_to_reading_list.
  rewrite Hu, Hb, Hm, Hid, Hname. simpl.
  pose proof (fresh_pk_None (seq_of db "ReadingList") (tbl_reading_list db))
    as Hfresh.
  split_and!; [done| | |done..].
  - eexists _, _. rewrite lookup_alter_eq, lookup_insert_eq. simpl.
    split_and!; [done..| |].
    + apply (right_id_L ∅ (∪)).
    + intros k Hk. by rewrite lookup_alter_ne, lookup_insert_ne.
  - rewrite <- (size_dom (D:=gset Z) (alter _ _ _)), dom_alter_L, size_dom.
    by rewrite map_size_insert_None.
Qed.

Lemma add_to_reading_list_new_witness :
  ∃ pk l,
    tbl_reading_list sample_db !! pk = None ∧
    tbl_reading_list
      (add_to_reading_list (post_as 3 [("new_list_name", "Later")]%string 41)
         2 sample_db).2 !! pk = Some l ∧
    rl_name l = "Later"%string ∧ rl_user l = 3 ∧ rl_books l = {[2]}.
Proof.
  destruct (add_to_reading_list_new sample_db
              (post_as 3 [("new_list_name", "Later")]%string 41) 2 3 "Later")
    as (_ & (pk & l & Hno & Hl & Hn & Hu & Hb & _) & _).
  - vm_compute; reflexivity.
  - reflexivity.
  - vm_compute; eexists; reflexivity.
  - vm_compute; reflexivity.
  - vm_compute; reflexivity.
  - exists pk, l. split_and!; [exact Hno|exact Hl|exact Hn|exact Hu|exact Hb].
Defined.

(** ** Cascading deletion *)

(** C7: deleting an author removes the author and every book that refers
    to it; deleting a book removes it and every review of it; deleting a
    user removes the user, the user's reviews and the user's reading lists;
    and every operation, so every store the operations build, keeps every
    foreign key and every book link of a reading list pointing at a row. *)
Theorem cascade_delete_no_dangling :
  (∀ db pk, tbl_author (Author_delete db pk) !! pk = None ∧
     ∀ k b, tbl_book (Author_delete db pk) !! k = Some b → book_author b ≠ pk) ∧
  (∀ db pk, tbl_book (Book_delete db pk) !! pk = None ∧
     ∀ k r, tbl_review (Book_delete db pk) !! k = Some r → review_book r ≠ pk) ∧
  (∀ db pk, (pk ∉ tbl_user (User_delete db pk)) ∧
     (∀ k r, tbl_review (User_delete db pk) !! k = Some r → review_user r ≠ pk) ∧
     (∀ k l, tbl_reading_list (User_delete db pk) !! k = Some l → rl_user l ≠ pk)) ∧
  (∀ db db', step db db' → fk_ok db → fk_ok db') ∧
  (∀ db, reachable db → fk_ok db).
Proof.
  split_and!.
  - intros db pk. split; [apply lookup_delete_eq|].
    intros k b. simpl. rewrite map_lookup_filter_Some. simpl.
    intros [Hb Hg] Heq. apply Hg, elem_of_dom. exists b.
    by apply map_lookup_filter_Some.
  - intros db pk. simpl. split.
    + apply map_lookup_filter_None. right. intros b _. simpl.
      rewrite elem_of_singleton. tauto.
    + intros k r. rewrite map_lookup_filter_Some. simpl.
      rewrite elem_of_singleton. tauto.
  - intros db pk. simpl. split_and!.
    + rewrite elem_of_difference, elem_of_singleton. tauto.
    + intros k r. rewrite map_lookup_filter_Some. tauto.
    + intros k l. rewrite map_lookup_filter_Some. tauto.
  - apply fk_ok_step.
  - apply reachable_fk_ok.
Qed.

(** In the sample store, deleting the author empties the book table and
    the review table and unlinks every book. *)
Example Author_delete_sample :
  map_to_list (tbl_book (Author_delete sample_db 1)) = [] ∧
  map_to_list (tbl_review (Author_delete sample_db 1)) = [] ∧
  (λ kl, elements (rl_books kl.2)) <$>
    map_to_list (tbl_reading_list (Author_delete sample_db 1)) = [[]; []].
Proof. vm_compute. split_and!; reflexivity. Qed.

(** ** Ratings come from the choices *)

Lemma RATING_CHOICES_range (x : Z) : x ∈ RATING_CHOICES.*1 ↔ 1 <= x <= 5.
Proof.
  simpl. rewrite !elem_of_cons, elem_of_nil. lia.
Qed.

Lemma sum_list_bounds (xs : list Z) (lo hi : Z) :
  Forall (λ x, lo <= x <= hi) xs →
  lo * Z.of_nat (length xs) <= sum_list xs <= hi * Z.of_nat (length xs).
Proof.
  unfold sum_list. induction 1 as [|x xs Hx _ IH]; simpl; [lia|].
  rewrite Nat2Z.inj_succ. lia.
Qed.

Lemma mean_bounds (xs : list Z) (lo hi : Z) :
  xs ≠ [] → Forall (λ x, lo <= x <= hi) xs →
  (inject_Z lo <= mean xs <= inject_Z hi)%Q.
Proof.
  intros Hne Hxs. apply sum_list_bounds in Hxs as [Hlo Hhi]. unfold mean.
  assert (Hn : 0 < Z.of_nat (length xs)) by (destruct xs; [done|simpl; lia]).
  set (n := Z.of_nat (length xs)) in *. set (s := sum_list xs) in *.
  assert (0 < inject_Z n)%Q as Hq.
  { change 0%Q with (inject_Z 0). by rewrite <- Zlt_Qlt. }
  split.
  - apply Qle_shift_div_l; [done|].
    by rewrite <- inject_Z_mult, <- Zle_Qle.
  - apply Qle_shift_div_r; [done|].
    by rewrite <- inject_Z_mult, <- Zle_Qle.
Qed.

Lemma ratings_Forall (db : DB) (b : Z) (P : Z → Prop) :
  (∀ k r, tbl_review db !! k = Some r → P (review_rating r)) →
  Forall P (ratings (reviews db b)).
Proof.
  intros H. unfold ratings. apply Forall_fmap, Forall_forall.
  intros [k r] Hin. apply elem_of_map_to_list in Hin. unfold reviews in Hin.
  apply map_lookup_filter_Some in Hin as [Hr _]. simpl. eauto.
Qed.

Lemma average_rating_bounds (db : DB) (b : Z) (lo hi : Z) :
  0 < lo →
  (∀ k r, tbl_review db !! k = Some r → lo <= review_rating r <= hi) →
  reviews db b ≠ ∅ →
  (inject_Z lo <= average_rating db b <= inject_Z hi)%Q.
Proof.
  intros Hlo Hall Hne. unfold average_rating.
  assert (Hm : (inject_Z lo <= mean (ratings (reviews db b)) <= inject_Z hi)%Q).
  { apply mean_bounds; [by rewrite ratings_nil|by apply ratings_Forall]. }
  rewrite Avg_nonempty by (by rewrite ratings_nil).
  destruct (float_truthy _) eqn:Ht; [by apply py_round_2_bounds|].
  apply float_truthy_false in Ht. rewrite Ht in Hm. destruct Hm as [Hm _].
  rewrite (Zlt_Qlt 0 lo) in Hlo. change (inject_Z 0) with 0%Q in Hlo. lra.
Qed.

(** C9: a review row that [add_review] stores has a rating from 1 to 5; so
    in every store the operations build all ratings are from 1 to 5, the
    [average_rating] of a book with at least one review is between 1 and 5,
    and it is 0 exactly for the books without a review. *)
Theorem ratings_bound_average :
  (∀ db request book_id k r,
     tbl_review (add_review request book_id db).2 !! k = Some r →
     tbl_review db !! k ≠ Some r → 1 <= review_rating r <= 5) ∧
  (∀ db, reachable db →
     (∀ k r, tbl_review db !! k = Some r → 1 <= review_rating r <= 5) ∧
     ∀ b, (reviews db b ≠ ∅ → (1 <= average_rating db b <= 5)%Q) ∧
          ((average_rating db b == 0)%Q ↔ reviews db b = ∅)).
Proof.
  split.
  - intros db request book_id k r Hr Hnew.
    destruct (step_reviews db _ k r (step_add_review request book_id db) Hr)
      as [Hold|(_ & Hc & _)]; [done|]. by apply RATING_CHOICES_range.
  - intros db Hre.
    assert (Hall : ∀ k r, tbl_review db !! k = Some r → 1 <= review_rating r <= 5).
    { intros k r Hr. by eapply RATING_CHOICES_range, reachable_ratings_ok. }
    split; [done|]. intros b.
    assert (Hb : reviews db b ≠ ∅ → (1 <= average_rating db b <= 5)%Q).
    { intros Hne. by apply (average_rating_bounds db b 1 5). }
    split; [done|]. split.
    + intros H0. destruct (decide (reviews db b = ∅)) as [|Hne]; [done|].
      apply Hb in Hne as [Hge _]. rewrite H0 in Hge. by vm_compute in Hge.
    + intros He. unfold average_rating. by rewrite He.
Qed.

Lemma ratings_bound_average_witness :
  (1 <= average_rating sample_db 2 <= 5)%Q ∧
  ¬ (average_rating sample_db 2 == 0)%Q ∧
  (average_rating sample_db 3 == 0)%Q.
Proof.
  destruct ratings_bound_average as [_ H].
  destruct (H sample_db reachable_sample_db) as [_ Hb].
  assert (Hne : reviews sample_db 2 ≠ ∅).
  { intros He. apply (f_equal size) in He. vm_compute in He. discriminate He. }
  assert (He : reviews sample_db 3 = ∅) by (vm_compute; reflexivity).
  split; [exact (proj1 (Hb 2) Hne)|]. split.
  - intros H0. exact (Hne (proj1 (proj2 (Hb 2)) H0)).
  - exact (proj2 (proj2 (Hb 3)) He).
Defined.

(** ** Decimal text *)


Lemma digit_val_pretty_N_char (d : N) :
  (d < 10)%N → digit_val (pretty_N_char d) = Some (Z.of_N d).
Proof.
  intros Hd.
  assert (d = 0 ∨ d = 1 ∨ d = 2 ∨ d = 3 ∨ d = 4 ∨ d = 5 ∨ d = 6 ∨ d = 7 ∨
          d = 8 ∨ d = 9)%N as Hc by lia.
  repeat (destruct Hc as [->|Hc]; [reflexivity|]). by subst.
Qed.

Lemma digits_val_pretty_N_go (x : N) :
  (0 < x)%N → ∀ s, ∃ p, ∀ acc b,
    digits_val (pretty_N_go x s) acc b = digits_val s (acc * p + Z.of_N x) true.
Proof.
  induction (N.lt_wf_0 x) as [x _ IH]. intros Hx s.
  rewrite pretty_N_go_step by done.
  pose proof (N.mod_lt x 10 ltac:(done)) as Hm.
  pose proof (N.div_mod x 10 ltac:(done)) as Hdm.
  destruct (decide (x `div` 10 = 0)%N) as [Hz|Hnz].
  - rewrite Hz, pretty_N_go_0. exists 10. intros acc b. simpl.
    rewrite digit_val_pretty_N_char by done. f_equal. lia.
  - destruct (IH (x `div` 10)%N) with (s := String (pretty_N_char (x `mod` 10)) s)
      as [p Hp]; [apply N.div_lt; lia|lia|].
    exists (10 * p). intros acc b. rewrite Hp. simpl.
    rewrite digit_val_pretty_N_char by done. f_equal. lia.
Qed.

Lemma is_digit_pretty_N_go (x : N) (s : string) :
  Forall is_digit (chars s) → Forall is_digit (chars (pretty_N_go x s)).
Proof.
  revert s. induction (N.lt_wf_0 x) as [x _ IH]. intros s Hs.
  destruct (decide (x = 0)%N) as [->|Hx]; [by rewrite pretty_N_go_0|].
  rewrite pretty_N_go_step by lia. apply IH; [apply N.div_lt; lia|].
  simpl. constructor; [|done]. unfold is_digit.
  rewrite digit_val_pretty_N_char; [done|]. by apply N.mod_lt.
Qed.

(** The text of a key: for [0 <= z], [str(z)] is a non-empty run of digits
    with value [z]. *)
Lemma pretty_nonneg (z : Z) :
  0 <= z →
  Forall is_digit (chars (pretty z)) ∧ digits_val (pretty z) 0 false = Some z.
Proof.
  intros Hz. destruct z as [|q|q]; [|clear Hz|lia].
  - split; [|reflexivity]. repeat constructor. by eexists.
  - change (pretty (Z.pos q)) with (pretty_N_go (N.pos q) ""). split.
    + apply is_digit_pretty_N_go. constructor.
    + destruct (digits_val_pretty_N_go (N.pos q) ltac:(lia) "") as [p Hp].
      by rewrite Hp.
Qed.

Lemma all_digits_pretty (z : Z) : 0 <= z → all_digits (pretty z) = Some z.
Proof.
  intros Hz. destruct (pretty_nonneg z Hz) as [Hd Hv]. unfold all_digits.
  by rewrite bool_decide_true.
Qed.

Lemma all_digits_Some (s : string) (z : Z) :
  all_digits s = Some z → Forall is_digit (chars s) ∧ digits_val s 0 false = Some z.
Proof. unfold all_digits. case_bool_decide; naive_solver. Qed.

(** ** URLs *)

Lemma split_on_no_sep (sep : ascii) (s : string) :
  Forall (λ c, c ≠ sep) (chars s) → split_on sep s = [s].
Proof.
  induction s as [|c s IH]; [done|]. simpl. intros H.
  inversion H as [|?? Hc Hs]; subst. rewrite decide_False by done.
  by rewrite IH.
Qed.

Lemma split_on_app (sep : ascii) (s t : string) :
  Forall (λ c, c ≠ sep) (chars s) →
  split_on sep (s +:+ String sep t) = s :: split_on sep t.
Proof.
  induction s as [|c s IH]; simpl; intros H.
  - by rewrite decide_True.
  - inversion H as [|?? Hc Hs]; subst. rewrite decide_False by done.
    by rewrite IH.
Qed.

Lemma split_on_parts (sep : ascii) (s : string) :
  Forall (λ p, Forall (λ c, c ≠ sep) (chars p)) (split_on sep s).
Proof.
  induction s as [|c s IH]; simpl; [by repeat constructor|].
  case_decide; [by constructor|].
  destruct (split_on sep s) as [|p ps]; [by repeat constructor|].
  inversion IH; subst. constructor; [|done]. by constructor.
Qed.

Lemma split_on_nonempty (sep : ascii) (s : string) (parts : list string) :
  length parts = length (split_on sep s) → parts ≠ [].
Proof.
  intros Hlen ->. destruct s as [|c s]; [done|]. simpl in Hlen.
  case_decide; [done|]. by destruct (split_on sep s).
Qed.

Lemma split_on_join (sep : ascii) (parts : list string) :
  parts ≠ [] → Forall (λ p, Forall (λ c, c ≠ sep) (chars p)) parts →
  split_on sep (join (String sep EmptyString) parts) = parts.
Proof.
  induction parts as [|p parts IH]; [done|]. intros _ H.
  inversion H as [|?? Hp Hps]; subst.
  destruct parts as [|q parts]; [by apply split_on_no_sep|].
  change (join (String sep "") (p :: q :: parts))
    with (p +:+ String sep (join (String sep "") (q :: parts))).
  rewrite split_on_app by done. by rewrite IH.
Qed.

Lemma is_digit_not_slash (c : ascii) : is_digit c → c ≠ "/"%char.
Proof. intros [d Hd] ->. discriminate Hd. Qed.

(** A path filled in from a route matches that route, with the same
    keyword arguments. *)
Lemma match_fill_segments (route parts : list string) (kwargs : gmap string Z) :
  Forall (λ p, Forall (λ c, c ≠ "/"%char) (chars p)) route →
  fill_segments route kwargs = Some parts →
  Forall (λ p, Forall (λ c, c ≠ "/"%char) (chars p)) parts ∧
  length parts = length route ∧
  ∃ m, match_segments route parts = Some m ∧ m ⊆ kwargs ∧
       dom m = route_params route.
Proof.
  revert parts. induction route as [|r route IH]; intros parts Hr Hf.
  - simpl in Hf. simplify_eq. split_and!; [done..|].
    exists ∅. split_and!; [done|apply map_empty_subseteq|].
    unfold route_params. simpl. apply dom_empty_L.
  - inversion Hr as [|?? Hr1 Hr2]; subst. simpl in Hf.
    apply bind_Some in Hf as (rest & Hrest & Hf).
    destruct (IH rest Hr2 Hrest) as (Hns & Hlen & m & Hm & Hsub & Hdom).
    unfold route_params in *. simpl.
    destruct (int_converter r) as [name|] eqn:Hc.
    + apply bind_Some in Hf as (v & Hv & Hf). case_decide; [|done].
      simplify_eq. destruct (pretty_nonneg v) as [Hd _]; [done|].
      split_and!.
      * constructor; [|done]. eapply Forall_impl; [exact Hd|].
        apply is_digit_not_slash.
      * simpl. by rewrite Hlen.
      * exists (<[name := v]> m). simpl.
        rewrite all_digits_pretty by done. simpl. rewrite Hm. simpl.
        split_and!; [done| |].
        -- by apply insert_subseteq_l.
        -- rewrite dom_insert_L, Hdom. done.
    + simplify_eq. split_and!; [by constructor|by simpl; rewrite Hlen|].
      exists m. simpl. by rewrite decide_True.
Qed.

Lemma no_clash_no_match (early late parts : list string) (kwargs : gmap string Z) :
  routes_may_clash early late = false →
  fill_segments late kwargs = Some parts →
  match_segments early parts = None.
Proof.
  revert late parts. induction early as [|e early IH]; intros late parts Hc Hf.
  - destruct late as [|l late]; [done|]. simpl in Hf.
    apply bind_Some in Hf as (rest & _ & Hf).
    destruct (int_converter l); [|by simplify_eq].
    apply bind_Some in Hf as (v & _ & Hf). case_decide; by simplify_eq.
  - destruct late as [|l late]; [simpl in Hf; by simplify_eq|].
    simpl in Hf, Hc. apply bind_Some in Hf as (rest & Hrest & Hf).
    apply andb_false_iff in Hc. unfold seg_may_match in Hc.
    assert (Htail : routes_may_clash early late = false →
                    match_segments (e :: early) parts = None).
    { intros Hcl. specialize (IH late rest Hcl Hrest).
      destruct (int_converter l).
      - apply bind_Some in Hf as (v & _ & Hf). case_decide; [|done].
        simplify_eq. simpl. rewrite IH.
        destruct (int_converter e); [by destruct (all_digits _)|by case_decide].
      - simplify_eq. simpl. rewrite IH.
        destruct (int_converter e); [by destruct (all_digits _)|by case_decide]. }
    destruct Hc as [Hc|Hc]; [|by apply Htail].
    destruct (int_converter l) as [name|] eqn:Hl.
    + apply bind_Some in Hf as (v & _ & Hf). case_decide; [|done].
      simplify_eq. simpl.
      destruct (int_converter e); [done|].
      apply bool_decide_eq_false in Hc. rewrite decide_False; [done|].
      intros ->. apply Hc. rewrite all_digits_pretty by done. by eexists.
    + simplify_eq. simpl. destruct (int_converter e).
      * apply bool_decide_eq_false in Hc.
        destruct (all_digits l) eqn:Hd; [|done]. destruct Hc. by eexists.
      * apply bool_decide_eq_false in Hc. by rewrite decide_False.
Qed.

Lemma reverse_in_Some (patterns : list (string * string)) name kwargs url :
  reverse_in patterns name kwargs = Some url →
  ∃ route parts, (route, name) ∈ patterns ∧
    dom kwargs = route_params (split_on "/" route) ∧
    fill_segments (split_on "/" route) kwargs = Some parts ∧
    url = join "/" parts.
Proof.
  induction patterns as [|[route name'] patterns IH]; [done|]. simpl.
  case_decide as Hd.
  - destruct (fill_segments _ _) as [parts|] eqn:Hf.
    + intros [= <-]. destruct Hd as [-> Hdom]. exists route, parts.
      split_and!; [apply list_elem_of_here|done..].
    + intros H. destruct (IH H) as (r & ps & Hin & ?). exists r, ps.
      split; [by apply list_elem_of_further|done].
  - intros H. destruct (IH H) as (r & ps & Hin & ?). exists r, ps.
    split; [by apply list_elem_of_further|done].
Qed.

Lemma resolve_in_reverse_in (patterns : list (string * string)) name kwargs url :
  unshadowed patterns = true →
  reverse_in patterns name kwargs = Some url →
  resolve_in patterns url = Some (name, kwargs).
Proof.
  induction patterns as [|[route name'] patterns IH]; [done|].
  simpl. intros Hun Hrev. apply andb_true_iff in Hun as [Hhead Hun].
  assert (Hmatch : ∀ parts, fill_segments (split_on "/" route) kwargs = Some parts →
    dom kwargs = route_params (split_on "/" route) →
    match_segments (split_on "/" route) (split_on "/" (join "/" parts))
      = Some kwargs).
  { intros parts Hf Hdom.
    destruct (match_fill_segments _ _ _ (split_on_parts "/" route) Hf)
      as (Hns & Hlen & m & Hm & Hsub & Hdm).
    rewrite split_on_join; [|by eapply split_on_nonempty|done].
    rewrite Hm. f_equal. apply subseteq_dom_eq; [done|].
    by rewrite Hdm, Hdom. }
  assert (Hlater : reverse_in patterns name kwargs = Some url →
    resolve_in ((route, name') :: patterns) url = Some (name, kwargs)).
  { intros H. simpl.
    destruct (reverse_in_Some _ _ _ _ H) as (r & ps & Hin & _ & Hf & ->).
    rewrite forallb_forall in Hhead.
    specialize (Hhead (r, name) ltac:(by apply list_elem_of_In)).
    simpl in Hhead. apply negb_true_iff in Hhead.
    destruct (match_fill_segments _ _ _ (split_on_parts "/" r) Hf)
      as (Hns & Hlen & _).
    rewrite split_on_join; [|by eapply split_on_nonempty|done].
    rewrite (no_clash_no_match _ _ _ _ Hhead Hf). by apply IH. }
  case_decide as Hd; [|by apply Hlater].
  destruct (fill_segments _ _) as [parts|] eqn:Hf; [|by apply Hlater].
  simplify_eq. destruct Hd as [-> Hdom]. by rewrite (Hmatch parts).
Qed.

Lemma unshadowed_urlpatterns : unshadowed urlpatterns = true.
Proof. vm_compute. reflexivity. Qed.

(** X1: a path that [reverse] builds for a name and keyword arguments is
    resolved to that name with those arguments: no pattern of
    [urlpatterns] takes a path of a later one. *)
Theorem resolve_reverse (name : string) (kwargs : gmap string Z) (url : string) :
  reverse name kwargs = Some url → resolve url = Some (name, kwargs).
Proof.
  apply resolve_in_reverse_in, unshadowed_urlpatterns.
Qed.

Lemma resolve_reverse_witness :
  reverse "add-review" {[ "book_id"%string := 7 ]} = Some "books/7/review/"%string ∧
  resolve "books/7/review/" = Some ("add-review"%string, {[ "book_id"%string := 7 ]}).
Proof.
  assert (H : reverse "add-review" {[ "book_id"%string := 7 ]}
              = Some "books/7/review/"%string) by (vm_compute; reflexivity).
  split; [exact H|]. exact (resolve_reverse _ _ _ H).
Defined.

(** ** Keys *)











(** ** Absolute URLs *)







(** ** More on review submission *)

Lemma reviews_insert_fresh (db : DB) (r : Review) (b : Z) :
  let k := fresh_pk (seq_of db "Review") (tbl_review db) in
  filter (λ kr : Z * Review, review_book kr.2 = b) (<[k := r]> (tbl_review db))
  = if decide (review_book r = b) then <[k := r]> (reviews db b)
    else reviews db b.
Proof.
  intros k. unfold reviews. rewrite map_filter_insert. simpl.
  case_decide; [done|]. by rewrite delete_id by apply fresh_pk_None.
Qed.

(** X3: a valid review of a logged-in user for an existing book that
    this user has not reviewed is stored: the answer redirects to the
    book's page; the review table gains one row, under a key it did not
    hold, with the book, the user, the rating and the text of the form,
    [created_at] from the first reading of the clock and [updated_at] from
    the second; the ratings of the book gain exactly the submitted rating,
    [review_count] grows by one, the reviews of every other book and all
    rows that were there stay as they were. *)
Theorem add_review_stores (db : DB) (request : HttpRequest)
    (book_id user rating : Z) (text : string) :
  request_user db request = Some user → is_Some (tbl_book db !! book_id) →
  method request = POST →
  ReviewForm_clean (POST_data request) = Some (rating, text) →
  ¬ review_pair_taken db book_id user →
  let db' := (add_review request book_id db).2 in
  let review :=
    mkReview book_id user rating text (now request) (now_again request) in
  (add_review request book_id db).1 = Redirect "book-detail" (Some book_id) ∧
  (∃ pk, tbl_review db !! pk = None ∧
         tbl_review db' = <[pk := review]> (tbl_review db)) ∧
  ratings (reviews db' book_id) ≡ₚ rating :: ratings (reviews db book_id) ∧
  review_count db' book_id = S (review_count db book_id) ∧
  (∀ b, b ≠ book_id → reviews db' b = reviews db b) ∧
  tbl_review db ⊆ tbl_review db' ∧
  tbl_user db' = tbl_user db ∧ tbl_author db' = tbl_author db ∧
  tbl_book db' = tbl_book db ∧ tbl_reading_list db' = tbl_reading_list db.
Proof.
  intros Hu [bk Hb] Hm Hf Hn. unfold add_review, Review_save.
  rewrite Hu, Hb, Hm, Hf. simpl. rewrite decide_False by done. simpl.
  pose proof (fresh_pk_None (seq_of db "Review") (tbl_review db)) as Hfresh.
  assert (Hnone : reviews db book_id
                    !! fresh_pk (seq_of db "Review") (tbl_review db) = None).
  { unfold reviews. apply map_lookup_filter_None. by left. }
  split_and!; try done.
  - by eexists.
  - unfold ratings, reviews at 1. simpl. rewrite reviews_insert_fresh. simpl.
    rewrite decide_True by done. by rewrite map_to_list_insert.
  - unfold review_count, reviews at 1. simpl. rewrite reviews_insert_fresh.
    simpl. rewrite decide_True by done. by rewrite map_size_insert_None.
  - intros b Hne. unfold reviews at 1. simpl. rewrite reviews_insert_fresh.
    simpl. by rewrite decide_False.
  - by apply insert_subseteq.
Qed.

Lemma add_review_stores_witness :
  ratings (reviews (add_review (review_as 3 26 "1") 1 sample_db).2 1)
    ≡ₚ 1 :: ratings (reviews sample_db 1) ∧
  review_count (add_review (review_as 3 26 "1") 1 sample_db).2 1 = 3%nat.
Proof.
  destruct (add_review_stores sample_db (review_as 3 26 "1") 1 3 1 "Read it.")
    as (_ & _ & Hr & Hc & _).
  - vm_compute; reflexivity.
  - vm_compute; eexists; reflexivity.
  - reflexivity.
  - vm_compute; reflexivity.
  - intros Ht. apply map_Exists_to_list in Ht. vm_compute in Ht.
    repeat (apply Exists_cons in Ht as [[Hb Hu]|Ht]; [discriminate|]).
    by apply Exists_nil in Ht.
  - split; [exact Hr|]. rewrite Hc. vm_compute. reflexivity.
Defined.

(** X4: [add_review] changes the store only for a POST of a logged-in
    user, for an existing book, with a valid form, when that user has no
    review of that book yet. *)
Theorem add_review_writes_only_if (db : DB) (request : HttpRequest) (book_id : Z) :
  (add_review request book_id db).2 ≠ db →
  method request = POST ∧ is_Some (tbl_book db !! book_id) ∧
  is_Some (ReviewForm_clean (POST_data request)) ∧
  ∃ user, request_user db request = Some user ∧
          ¬ review_pair_taken db book_id user.
Proof.
  intros Hne.
  destruct (add_review_cases db request book_id)
    as [H|[H|[H|(u & rating & text & Hu & Hb & Hm & Hf & [[_ H]|[Hn _]])]]];
    try (by rewrite H in Hne).
  split_and!; [done|done|by rewrite Hf|]. by exists u.
Qed.

Lemma add_review_writes_only_if_witness :
  method (review_as 3 26 "1") = POST ∧
  ∃ user, request_user sample_db (review_as 3 26 "1") = Some user ∧
          ¬ review_pair_taken sample_db 1 user.
Proof.
  destruct (add_review_writes_only_if sample_db (review_as 3 26 "1") 1)
    as (Hm & _ & _ & Hu).
  - intros He. apply (f_equal (λ d, size (tbl_review d))) in He.
    vm_compute in He. discriminate He.
  - split; [exact Hm|exact Hu].
Defined.

(** X5: a submission that was stored cannot be stored again: sent a
    second time, the same request fails with [IntegrityError] and leaves
    the store as the first submission made it. *)
Theorem add_review_twice (db : DB) (request : HttpRequest) (book_id : Z) :
  (add_review request book_id db).1 = Redirect "book-detail" (Some book_id) →
  let db' := (add_review request book_id db).2 in
  add_review request book_id db' = (ServerError IntegrityError, db').
Proof.
  intros Hok db'. subst db'.
  destruct (add_review_cases db request book_id)
    as [H|[H|[H|(u & rating & text & Hu & [bk Hb] & Hm & Hf & [[_ H]|[Hn H]])]]];
    rewrite H in Hok |- *; try done.
  simpl. unfold add_review, Review_save, request_user in *. simpl.
  destruct (session_user request) as [s|]; [|done].
  destruct (decide (s ∈ tbl_user db)); [|done]. simplify_eq.
  rewrite Hb, Hm, Hf. simpl. rewrite decide_True; [done|].
  eexists _, _. split; [apply lookup_insert_eq|done].
Qed.

Lemma add_review_twice_witness :
  add_review (review_as 3 26 "1") 1 (add_review (review_as 3 26 "1") 1 sample_db).2
    = (ServerError IntegrityError, (add_review (review_as 3 26 "1") 1 sample_db).2).
Proof.
  apply (add_review_twice sample_db (review_as 3 26 "1") 1).
  vm_compute. reflexivity.
Defined.

Lemma ReviewForm_clean_iff (data : QueryDict) (rating : Z) (text : string) :
  ReviewForm_clean data = Some (rating, text) ↔
  1 <= rating <= 5 ∧ QueryDict_get data "rating" = Some (pretty rating) ∧
  text = strip (default EmptyString (QueryDict_get data "review_text")) ∧
  text ≠ EmptyString ∧ has_null text = false.
Proof.
  unfold ReviewForm_clean, ChoiceField_clean, CharField_clean. split.
  - intros H. apply bind_Some in H as (r & Hr & H).
    apply bind_Some in H as (t & Ht & H). simplify_eq.
    apply bind_Some in Hr as (s & Hs & Hr).
    apply fmap_Some in Hr as ([k lbl] & Hh & ->). simpl.
    apply head_Some_elem_of, list_elem_of_filter in Hh as [Hp Hin].
    simpl in Hp. subst s.
    assert (Hk : 1 <= k <= 5).
    { apply RATING_CHOICES_range. by apply (list_elem_of_fmap_2 fst) in Hin. }
    case_decide; [done|].
    destruct (has_null _) eqn:Hnull; [done|]. simplify_eq.
    split_and!; [lia..| |done|done|done].
    unfold truthy in Hs. destruct (QueryDict_get data "rating"); [|done].
    by case_decide; simplify_eq.
  - intros (Hk & Hr & -> & Hne & Hnull). rewrite Hr. simpl.
    assert (rating = 1 ∨ rating = 2 ∨ rating = 3 ∨ rating = 4 ∨ rating = 5)
      as Hc by lia.
    rewrite decide_False by done. rewrite Hnull.
    destruct Hc as [-> | [-> | [-> | [-> | ->]]]]; reflexivity.
Qed.

(** X6: what [ReviewForm] accepts has a rating from 1 to 5, submitted as
    the text of that number, and a review text that is not empty: the
    submitted one, stripped. A rating that is not the text of 1 ... 5, a
    review text of blanks only, or one with a null character in it, is
    refused. *)
Theorem ReviewForm_accepts (data : QueryDict) :
  (∀ rating text, ReviewForm_clean data = Some (rating, text) →
     1 <= rating <= 5 ∧ QueryDict_get data "rating" = Some (pretty rating) ∧
     text ≠ EmptyString ∧
     (ascii_only (default EmptyString (QueryDict_get data "review_text")) →
      text = strip (default EmptyString (QueryDict_get data "review_text")))) ∧
  ((∀ k, 1 <= k <= 5 → QueryDict_get data "rating" ≠ Some (pretty k)) →
     ReviewForm_clean data = None) ∧
  (strip (default EmptyString (QueryDict_get data "review_text")) = EmptyString →
     ReviewForm_clean data = None) ∧
  (has_null (strip (default EmptyString (QueryDict_get data "review_text"))) = true →
     ReviewForm_clean data = None).
Proof.
  split_and!.
  - intros rating text H.
    apply ReviewForm_clean_iff in H as (Hk & Hr & Ht & Hne & _).
    split_and!; [lia|lia|done|done|]. by intros _.
  - intros Hno. destruct (ReviewForm_clean data) as [[rating text]|] eqn:H;
      [|done].
    apply ReviewForm_clean_iff in H as (Hk & Hr & _). by destruct (Hno _ Hk).
  - intros Hb. destruct (ReviewForm_clean data) as [[rating text]|] eqn:H;
      [|done].
    apply ReviewForm_clean_iff in H as (_ & _ & -> & Hne & _). by destruct Hne.
  - intros Hb. destruct (ReviewForm_clean data) as [[rating text]|] eqn:H;
      [|done].
    apply ReviewForm_clean_iff in H as (_ & _ & -> & _ & Hnull). congruence.
Qed.

(** ** Ordering and thresholds *)

#[local] Instance newer_first_total : Total newer_first.
Proof. intros x y. unfold newer_first. lia. Qed.

#[local] Instance newer_first_trans : Transitive newer_first.
Proof. intros x y z. unfold newer_first. lia. Qed.

#[local] Instance by_key_total {A} : Total (@by_key A).
Proof. intros x y. unfold by_key. lia. Qed.

#[local] Instance by_key_trans {A} : Transitive (@by_key A).
Proof. intros x y z. unfold by_key. lia. Qed.


Lemma StronglySorted_Book_objects_all (db : DB) :
  StronglySorted newer_first (Book_objects_all db).
Proof. apply StronglySorted_merge_sort; apply _. Qed.

Lemma ilog2_unique (x : Q) (e : Z) :
  (2 ^ e <= x < 2 ^ (e + 1))%Q → ilog2 x = e.
Proof.
  intros [Hl Hu].
  assert (Hx : (0 < x)%Q) by (pose proof (pow2_pos e); lra).
  destruct (ilog2_spec x Hx) as [Hl' Hu'].
  assert (H1 : (2 ^ e < 2 ^ (ilog2 x + 1))%Q) by lra.
  assert (H2 : (2 ^ ilog2 x < 2 ^ (e + 1))%Q) by lra.
  apply Qpower_lt_compat_l_inv in H1; [|reflexivity].
  apply Qpower_lt_compat_l_inv in H2; [|reflexivity]. lia.
Qed.

(** A quotient below 4 of a sum by a count of less than [2^50] is told
    from 4 by its float. *)
Lemma py_float_below_4 (s c : Z) :
  0 < c < 2 ^ 50 → s < 4 * c →
  (py_float (inject_Z s / inject_Z c) < 4)%Q.
Proof.
  intros Hc Hs.
  assert (Hcq : (0 < inject_Z c)%Q).
  { change 0%Q with (inject_Z 0). rewrite <- Zlt_Qlt. lia. }
  set (y := (inject_Z (4 * c - 1) / inject_Z c)%Q).
  assert (Hxy : (inject_Z s / inject_Z c <= y)%Q).
  { unfold y, Qdiv. apply Qmult_le_compat_r.
    - rewrite <- Zle_Qle. lia.
    - apply Qlt_le_weak, Qinv_lt_0_compat, Hcq. }
  apply Qle_lt_trans with (py_float y); [by apply py_float_mono|].
  assert (Hy3 : (3 <= y)%Q).
  { unfold y. apply Qle_shift_div_l; [done|].
    change 3%Q with (inject_Z 3). rewrite <- inject_Z_mult, <- Zle_Qle. lia. }
  assert (Hy4 : (y < 4)%Q).
  { unfold y. apply Qlt_shift_div_r; [done|].
    change 4%Q with (inject_Z 4). rewrite <- inject_Z_mult, <- Zlt_Qlt. lia. }
  assert (He : ilog2 y = 1).
  { apply ilog2_unique. change (2 ^ 1)%Q with 2%Q. change (2 ^ (1 + 1))%Q with 4%Q.
    lra. }
  rewrite py_float_pos by lra. unfold float_pos, float_near. rewrite He.
  change (Z.max 1 (-1022) - 52) with (-51).
  assert (Hu : (2 ^ (-51) == 1 # 2 ^ 51)%Q) by (by vm_compute).
  assert (Hr : round_half_even (y / 2 ^ (-51)) <= 2 ^ 53 - 2).
  { apply round_half_even_le. apply Qle_shift_div_r; [apply pow2_pos|].
    rewrite Hu. unfold y. apply Qle_shift_div_r; [done|].
    unfold Qle, Qmult, inject_Z. simpl. lia. }
  assert (Hn : (inject_Z (round_half_even (y / 2 ^ (-51))) * 2 ^ (-51) < 4)%Q).
  { rewrite Zle_Qle in Hr.
    set (z := inject_Z (round_half_even (y / 2 ^ (-51)))) in *. rewrite Hu.
    assert (H53 : (inject_Z (2 ^ 53 - 2) * (1 # 2 ^ 51) < 4)%Q) by (by vm_compute).
    eapply Qle_lt_trans; [|exact H53].
    apply Qmult_le_compat_r; [done|]. by vm_compute. }
  destruct (Qle_bool _ _) eqn:Hb; [|done].
  apply Qle_bool_iff in Hb.
  assert ((4 < 2 ^ 1024)%Q) by (by vm_compute). lra.
Qed.

Lemma length_ratings (q : gmap Z Review) : length (ratings q) = size q.
Proof. unfold ratings. by rewrite length_fmap, length_map_to_list. Qed.

(** X7: with the default threshold 4.0 the rounding to floats does not
    show. In a store whose ratings are among the choices, a book with fewer
    than [2^50] reviews is returned by [highly_rated()] exactly when it has
    a review and its mean rating is [>= 4], that is, when its ratings sum
    to at least 4 times their number. *)
Theorem highly_rated_default_exact (db : DB) (k : Z) (b : Book) :
  ratings_ok db → Z.of_nat (review_count db k) < 2 ^ 50 →
  ((k, b) ∈ (highly_rated_default db).*1 ↔
   tbl_book db !! k = Some b ∧ reviews db k ≠ ∅ ∧
   (4 <= mean (ratings (reviews db k)))%Q) ∧
  (reviews db k ≠ ∅ →
   (4 <= mean (ratings (reviews db k)))%Q ↔
   4 * Z.of_nat (review_count db k) <= sum_list (ratings (reviews db k))).
Proof.
  intros _ Hc. unfold review_count in *.
  assert (Hmean : reviews db k ≠ ∅ →
    (4 <= mean (ratings (reviews db k)))%Q ↔
    4 * Z.of_nat (size (reviews db k)) <= sum_list (ratings (reviews db k))).
  { intros Hne. unfold mean. rewrite length_ratings.
    assert (Hpos : 0 < Z.of_nat (size (reviews db k))).
    { destruct (size (reviews db k)) eqn:Hs; [|lia].
      by apply map_size_empty_iff in Hs. }
    assert (Hq : (0 < inject_Z (Z.of_nat (size (reviews db k))))%Q).
    { change 0%Q with (inject_Z 0). by rewrite <- Zlt_Qlt. }
    change 4%Q with (inject_Z 4). split.
    - intros H.
      apply (Qmult_le_compat_r _ _ (inject_Z (Z.of_nat (size (reviews db k)))))
        in H; [|lra].
      rewrite (Qmult_comm (_ / _)), Qmult_div_r in H by lra.
      by rewrite <- inject_Z_mult, <- Zle_Qle in H.
    - intros H. apply Qle_shift_div_l; [done|].
      by rewrite <- inject_Z_mult, <- Zle_Qle. }
  split; [|done].
  unfold highly_rated_default. rewrite elem_of_highly_rated_books.
  split; intros (Hb & Hne & Hle); (split_and!; [done..|]).
  - destruct (Qlt_le_dec (mean (ratings (reviews db k))) 4) as [Hlt|]; [|done].
    exfalso.
    assert (Hs : sum_list (ratings (reviews db k))
                 < 4 * Z.of_nat (size (reviews db k))).
    { destruct (Z_lt_le_dec (sum_list (ratings (reviews db k)))
                  (4 * Z.of_nat (size (reviews db k)))) as [|Hge]; [done|].
      apply Hmean in Hge; [lra|done]. }
    assert (Hpos : 0 < Z.of_nat (size (reviews db k))).
    { destruct (size (reviews db k)) eqn:Hsz; [|lia].
      by apply map_size_empty_iff in Hsz. }
    pose proof (py_float_below_4 _ _ (conj Hpos Hc) Hs) as Hf.
    unfold mean in Hle. rewrite length_ratings in Hle.
    assert (H4 : (py_float 4 == 4)%Q) by (by vm_compute). lra.
  - by apply py_float_mono.
Qed.

Lemma highly_rated_default_exact_witness :
  ∃ b, (1, b) ∈ (highly_rated_default sample_db).*1 ∧
       (4 <= mean (ratings (reviews sample_db 1)))%Q.
Proof.
  assert (Hb : ∃ b, tbl_book sample_db !! 1 = Some b)
    by (vm_compute; eexists; reflexivity).
  destruct Hb as [b Hb]. exists b.
  assert (Hm : (4 <= mean (ratings (reviews sample_db 1)))%Q) by (by vm_compute).
  destruct (highly_rated_default_exact sample_db 1 b) as [[_ Hin] _].
  - apply reachable_ratings_ok, reachable_sample_db.
  - vm_compute. reflexivity.
  - split; [|exact Hm]. apply Hin. split; [exact Hb|]. split; [|exact Hm].
    intros He. apply (f_equal size) in He. vm_compute in He. discriminate He.
Defined.





(** ** The home page *)

(** X10: [home] always renders; [recent_books] are the first books of the
    newest-first listing, six of them or all books when there are fewer;
    no book left out is newer than a book shown; the two counts are the
    sizes of the author and the book table. *)
Theorem home_recent_books (request : HttpRequest) (db : DB) :
  ∃ context,
    home request db = Render "core/home.html" context ∧
    recent_books context = take 6 (Book_objects_all db) ∧
    length (recent_books context) = (6 `min` size (tbl_book db))%nat ∧
    (∀ x y, x ∈ recent_books context →
       y.1 ∉ (recent_books context).*1 → tbl_book db !! y.1 = Some y.2 →
       book_created_at y.2 <= book_created_at x.2) ∧
    authors_count context = size (tbl_author db) ∧
    books_count context = size (tbl_book db).
Proof.
  eexists. split; [reflexivity|]. simpl. fold (Book_objects_all db).
  split_and!; [done| | |done..].
  - by rewrite length_take, Book_objects_all_Permutation, length_map_to_list.
  - intros x [k b] Hx Hy Hk. simpl in *.
    pose proof (StronglySorted_Book_objects_all db) as Hss.
    rewrite <- (take_drop 6 (Book_objects_all db)) in Hss.
    assert (Hxy : newer_first x (k, b)); [|unfold newer_first in Hxy; simpl in Hxy; lia].
    apply (StronglySorted_app_1_elem_of _ _ _ x (k, b) Hss Hx).
    apply elem_of_Book_objects_all in Hk.
    rewrite <- (take_drop 6 (Book_objects_all db)) in Hk.
    apply elem_of_app in Hk as [Hk|Hk]; [|done].
    destruct Hy. by apply (list_elem_of_fmap_2 fst) in Hk.
Qed.

(** ** More on pagination *)








(** ** More on reading lists *)

Lemma rl_add_book_idemp (book : Z) (l : ReadingList) :
  rl_add_book book (rl_add_book book l) = rl_add_book book l.
Proof.
  unfold rl_add_book. simpl. f_equal.
  by rewrite (assoc_L (∪)), union_idemp_L.
Qed.

Lemma request_user_users (db db' : DB) (request : HttpRequest) :
  tbl_user db' = tbl_user db → request_user db' request = request_user db request.
Proof. unfold request_user. by intros ->. Qed.

(** X13: adding a book to a list of one's own is idempotent: when the
    request with a list key has succeeded, the same request sent again
    succeeds and leaves the store as it is. *)
Theorem add_to_reading_list_idempotent (db : DB) (request : HttpRequest)
    (book_id : Z) (id : string) :
  method request = POST →
  truthy (QueryDict_get (POST_data request) "reading_list") = Some id →
  (add_to_reading_list request book_id db).1
    = Redirect "book-detail" (Some book_id) →
  let db' := (add_to_reading_list request book_id db).2 in
  add_to_reading_list request book_id db'
    = (Redirect "book-detail" (Some book_id), db').
Proof.
  intros Hm Hid Hok db'. subst db'. revert Hok. unfold add_to_reading_list.
  destruct (request_user db request) as [user|] eqn:Hu; [|done].
  destruct (tbl_book db !! book_id) as [b|] eqn:Hb; [|done].
  rewrite Hm, Hid. destruct (py_int id) as [pk|] eqn:Hpk; [|done].
  unfold get_ReadingList.
  destruct (tbl_reading_list db !! pk) as [l|] eqn:Hl; [|done]. simpl.
  case_decide as Ho; [|done]. intros _. cbn [fst snd].
  rewrite (request_user_users db) by done. rewrite Hu.
  cbn [tbl_book tbl_reading_list ReadingList_books_add].
  rewrite Hb, lookup_alter_eq, Hl. simpl.
  rewrite decide_True by done. f_equal. unfold ReadingList_books_add. simpl.
  f_equal. rewrite alter_alter_eq. apply alter_ext.
  intros l' _. apply rl_add_book_idemp.
Qed.

Lemma add_to_reading_list_idempotent_witness :
  let request := post_as 1 [("reading_list", "1")]%string 42 in
  let db' := (add_to_reading_list request 2 sample_db).2 in
  add_to_reading_list request 2 db' = (Redirect "book-detail" (Some 2), db').
Proof.
  apply (add_to_reading_list_idempotent sample_db _ 2 "1").
  - reflexivity.
  - vm_compute; reflexivity.
  - vm_compute; reflexivity.
Defined.

Lemma add_to_reading_list_new_eq (db : DB) (request : HttpRequest)
    (book_id user : Z) (name : string) :
  request_user db request = Some user → method request = POST →
  is_Some (tbl_book db !! book_id) →
  truthy (QueryDict_get (POST_data request) "reading_list") = None →
  truthy (QueryDict_get (POST_data request) "new_list_name") = Some name →
  let pk := fresh_pk (seq_of db "ReadingList") (tbl_reading_list db) in
  add_to_reading_list request book_id db
  = (Redirect "book-detail" (Some book_id),
     mkDB (tbl_user db) (tbl_author db) (tbl_book db) (tbl_review db)
       (<[pk := mkReadingList name user {[book_id]} EmptyString true (now request)]>
          (tbl_reading_list db))
       (<["ReadingList"%string := pk]> (key_seq db))).
Proof.
  intros Hu Hm [b Hb] Hid Hname pk. unfold add_to_reading_list.
  rewrite Hu, Hb, Hm, Hid, Hname. simpl.
  unfold ReadingList_books_add. simpl. fold pk. do 2 f_equal.
  rewrite alter_insert_eq. unfold rl_add_book. simpl.
  by rewrite (right_id_L ∅ (∪)).
Qed.

(** X14: a new list name is not checked against the lists there are: the
    same request with a new name (of at most 200 characters), sent twice,
    makes two lists of that name, each with the book. *)
Theorem add_to_reading_list_new_twice (db : DB) (request : HttpRequest)
    (book_id user : Z) (name : string) :
  request_user db request = Some user → method request = POST →
  is_Some (tbl_book db !! book_id) →
  truthy (QueryDict_get (POST_data request) "reading_list") = None →
  truthy (QueryDict_get (POST_data request) "new_list_name") = Some name →
  (String.length name ≤ 200)%nat →
  let db1 := (add_to_reading_list request book_id db).2 in
  let db2 := (add_to_reading_list request book_id db1).2 in
  let new := mkReadingList name user {[book_id]} EmptyString true (now request) in
  ∃ k1 k2, k1 ≠ k2 ∧
    tbl_reading_list db !! k1 = None ∧ tbl_reading_list db !! k2 = None ∧
    tbl_reading_list db2 !! k1 = Some new ∧ tbl_reading_list db2 !! k2 = Some new ∧
    size (tbl_reading_list db2) = S (S (size (tbl_reading_list db))).
Proof.
  intros Hu Hm Hb Hid Hname _. cbv zeta.
  rewrite (add_to_reading_list_new_eq db request book_id user name) by done.
  cbn [snd].
  rewrite (add_to_reading_list_new_eq _ request book_id user name);
    [|by rewrite (request_user_users db)|done..].
  cbn [snd tbl_reading_list tbl_user tbl_author tbl_book tbl_review].
  set (new := mkReadingList name user {[book_id]} EmptyString true (now request)).
  set (k1 := fresh_pk (seq_of db "ReadingList") (tbl_reading_list db)).
  set (t1 := <[k1 := new]> (tbl_reading_list db)).
  set (k2 := fresh_pk _ t1).
  pose proof (fresh_pk_None (seq_of db "ReadingList") (tbl_reading_list db)) as Hf1.
  fold k1 in Hf1.
  assert (Hf2 : t1 !! k2 = None) by apply fresh_pk_None.
  assert (Hne : k1 ≠ k2).
  { intros He. rewrite <- He in Hf2. unfold t1 in Hf2.
    by rewrite lookup_insert_eq in Hf2. }
  exists k1, k2.
  split_and!; [done|done| | | |].
  - unfold t1 in Hf2. by rewrite lookup_insert_ne in Hf2.
  - rewrite lookup_insert_ne by done. apply lookup_insert_eq.
  - apply lookup_insert_eq.
  - rewrite map_size_insert_None by done. unfold t1.
    by rewrite map_size_insert_None.
Qed.

Lemma add_to_reading_list_new_twice_witness :
  size (tbl_reading_list
          (add_to_reading_list (post_as 3 [("new_list_name", "Later")]%string 41) 2
             (add_to_reading_list
                (post_as 3 [("new_list_name", "Later")]%string 41) 2 sample_db).2).2)
  = 4%nat.
Proof.
  destruct (add_to_reading_list_new_twice sample_db
              (post_as 3 [("new_list_name", "Later")]%string 41) 2 3 "Later")
    as (k1 & k2 & _ & _ & _ & _ & _ & Hs).
  - vm_compute; reflexivity.
  - reflexivity.
  - vm_compute; eexists; reflexivity.
  - vm_compute; reflexivity.
  - vm_compute; reflexivity.
  - simpl; lia.
  - etrans; [exact Hs|]. vm_compute. reflexivity.
Defined.

(** X15: with a list key in the request, [add_to_reading_list] makes no
    list, whatever [new_list_name] holds; an ASCII key that is not a number
    fails with [ValueError], a number that is the key of no list is
    [Http404], and in both cases the store stays as it is. *)
Theorem add_to_reading_list_with_key (db : DB) (request : HttpRequest)
    (book_id user : Z) (id : string) :
  request_user db request = Some user → method request = POST →
  is_Some (tbl_book db !! book_id) →
  truthy (QueryDict_get (POST_data request) "reading_list") = Some id →
  dom (tbl_reading_list (add_to_reading_list request book_id db).2)
    = dom (tbl_reading_list db) ∧
  (ascii_only id → py_int id = None →
     add_to_reading_list request book_id db = (ServerError ValueError, db)) ∧
  (∀ pk, py_int id = Some pk → in_key_range pk →
     tbl_reading_list db !! pk = None →
     add_to_reading_list request book_id db = (Http404, db)).
Proof.
  intros Hu Hm [b Hb] Hid. unfold add_to_reading_list.
  rewrite Hu, Hb, Hm, Hid. split_and!.
  - destruct (py_int id); [|done]. destruct (get_ReadingList _ _ _); [|done].
    simpl. apply dom_alter_L.
  - by intros _ ->.
  - intros pk -> _ Hl. unfold get_ReadingList. by rewrite Hl.
Qed.

Lemma add_to_reading_list_with_key_witness :
  add_to_reading_list
    (post_as 1 [("reading_list", "mine"); ("new_list_name", "Other")]%string 43)
    1 sample_db
  = (ServerError ValueError, sample_db).
Proof.
  destruct (add_to_reading_list_with_key sample_db
    (post_as 1 [("reading_list", "mine"); ("new_list_name", "Other")]%string 43)
    1 1 "mine") as (_ & Hv & _).
  - vm_compute; reflexivity.
  - reflexivity.
  - vm_compute; eexists; reflexivity.
  - vm_compute; reflexivity.
  - apply Hv; [|vm_compute; reflexivity].
    repeat constructor; simpl; lia.
Defined.



Lemma CharField_clean_Some (required : bool) (max_length : option nat)
    (v : option string) (s : string) :
  CharField_clean required max_length v = Some s →
  s = strip (default EmptyString v) ∧
  (required = true → s ≠ EmptyString) ∧
  (∀ n, max_length = Some n → (String.length s ≤ n)%nat) ∧
  has_null s = false.
Proof.
  unfold CharField_clean. case_decide as He.
  - destruct required; [done|]. intros [= <-]. rewrite He.
    split_and!; [done|done| |done]. intros n _. simpl. lia.
  - destruct (has_null _) eqn:Hnull; [done|]. destruct max_length as [n|].
    + case_decide; [|done]. intros [= <-]. split_and!; [done|done| |done].
      by intros ? [= <-].
    + intros [= <-]. by split_and!.
Qed.

(** X17: when [CreateReadingListView] stores a list, the request is a
    POST of a logged-in user; the list gets a key that no list had, its
    owner is that user whatever the form data say, its name is not empty
    and at most 200 characters long, every book of it is a book of the
    store, and its date is the reading of the clock; no other row
    changes. *)
Theorem CreateReadingListView_stores (db db' : DB) (request : HttpRequest) :
  CreateReadingListView request db = (Redirect "reading-lists" None, db') →
  ∃ user pk l,
    method request = POST ∧ request_user db request = Some user ∧
    tbl_reading_list db !! pk = None ∧
    tbl_reading_list db' = <[pk := l]> (tbl_reading_list db) ∧
    tbl_user db' = tbl_user db ∧ tbl_author db' = tbl_author db ∧
    tbl_book db' = tbl_book db ∧ tbl_review db' = tbl_review db ∧
    rl_user l = user ∧
    rl_name l ≠ EmptyString ∧ (String.length (rl_name l) ≤ 200)%nat ∧
    (∀ b, b ∈ rl_books l → is_Some (tbl_book db !! b)) ∧
    rl_created_at l = now request.
Proof.
  unfold CreateReadingListView.
  destruct (request_user db request) as [user|] eqn:Hu; [|done].
  destruct (method request) eqn:Hm; [done|].
  destruct (ReadingListForm_clean _ _ _) as [l|] eqn:Hf; [|done].
  intros [= <-].
  exists user, (fresh_pk (seq_of db "ReadingList") (tbl_reading_list db)), l.
  unfold ReadingListForm_clean in Hf.
  apply bind_Some in Hf as (name & Hn & Hf).
  apply bind_Some in Hf as (descr & _ & Hf).
  apply bind_Some in Hf as (books & Hbs & Hf). simplify_eq. simpl.
  apply CharField_clean_Some in Hn as (_ & Hne & Hlen & _).
  split_and!; try done.
  - apply fresh_pk_None.
  - by apply Hne.
  - by apply Hlen.
  - intros b Hb. by eapply ModelMultipleChoiceField_clean_Some.
Qed.

Lemma CreateReadingListView_stores_witness :
  ∃ user l, request_user sample_db
              (post_as 3 [("name", " Summer "); ("books", "1")]%string 45) = Some user ∧
            rl_user l = user ∧ rl_name l ≠ EmptyString.
Proof.
  destruct (CreateReadingListView_stores sample_db
              (CreateReadingListView
                 (post_as 3 [("name", " Summer "); ("books", "1")]%string 45)
                 sample_db).2
              (post_as 3 [("name", " Summer "); ("books", "1")]%string 45))
    as (user & pk & l & _ & Hu & _ & _ & _ & _ & _ & _ & Ho & Hn & _).
  - vm_compute. reflexivity.
  - exists user, l. split; [exact Hu|]. split; [exact Ho|exact Hn].
Defined.

(** X18: the two ways to make a reading list do not agree on names: a
    name of blanks only (at most 200 of them) is stored as it is by
    [add_to_reading_list], under a key that no list had, while
    [CreateReadingListView] shows the form again and stores nothing. *)
Theorem blank_list_name (db : DB) (request1 request2 : HttpRequest)
    (book_id user : Z) (name : string) :
  request_user db request1 = Some user → request_user db request2 = Some user →
  method request1 = POST → method request2 = POST →
  is_Some (tbl_book db !! book_id) →
  QueryDict_get (POST_data request1) "reading_list" = None →
  QueryDict_get (POST_data request1) "new_list_name" = Some name →
  QueryDict_get (POST_data request2) "name" = Some name →
  name ≠ EmptyString → strip name = EmptyString →
  (String.length name ≤ 200)%nat →
  (∃ pk l, tbl_reading_list db !! pk = None ∧
           tbl_reading_list (add_to_reading_list request1 book_id db).2 !! pk
             = Some l ∧
           rl_name l = name) ∧
  CreateReadingListView request2 db = (Render "core/reading_list_form.html" (), db).
Proof.
  intros Hu1 Hu2 Hm1 Hm2 Hb Hid Hname1 Hname2 Hne Hblank _. split.
  - rewrite (add_to_reading_list_new_eq db request1 book_id user name);
      [|done|done|done|by rewrite Hid|].
    + eexists _, _. simpl. rewrite lookup_insert_eq.
      split_and!; [apply fresh_pk_None|done..].
    + rewrite Hname1. simpl. by rewrite decide_False.
  - unfold CreateReadingListView, ReadingListForm_clean, CharField_clean.
    rewrite Hu2, Hm2, Hname2. simpl. rewrite Hblank.
    by destruct (decide (EmptyString = EmptyString)).
Qed.

Lemma blank_list_name_witness :
  (∃ pk l, tbl_reading_list sample_db !! pk = None ∧
           tbl_reading_list
             (add_to_reading_list (post_as 1 [("new_list_name", "  ")]%string 46)
                1 sample_db).2 !! pk = Some l ∧
           rl_name l = "  "%string) ∧
  CreateReadingListView (post_as 1 [("name", "  ")]%string 46) sample_db
    = (Render "core/reading_list_form.html" (), sample_db).
Proof.
  apply (blank_list_name sample_db _ _ 1 1 "  ").
  - vm_compute; reflexivity.
  - vm_compute; reflexivity.
  - reflexivity.
  - reflexivity.
  - vm_compute; eexists; reflexivity.
  - vm_compute; reflexivity.
  - vm_compute; reflexivity.
  - vm_compute; reflexivity.
  - discriminate.
  - vm_compute; reflexivity.
  - simpl; lia.
Defined.

(** ** Books *)

Lemma IntegerField_clean_Some (v : option string) (k : Z) :
  IntegerField_clean v = Some k → in_integer_range k.
Proof.
  unfold IntegerField_clean. intros H.
  apply bind_Some in H as (s & _ & H). apply bind_Some in H as (k' & _ & H).
  case_decide; by simplify_eq.
Qed.

Lemma BookForm_clean_Some (db : DB) (request : HttpRequest) (b : Book) :
  BookForm_clean db request = Some b →
  book_fields_ok b ∧ is_Some (tbl_author db !! book_author b) ∧
  book_isbn b = strip (default EmptyString
                         (QueryDict_get (POST_data request) "isbn")) ∧
  (∀ k b', tbl_book db !! k = Some b' → book_isbn b' ≠ book_isbn b) ∧
  book_created_at b = now request ∧ book_updated_at b = now_again request.
Proof.
  intros H. pose proof (BookForm_clean_author db request b H) as Ha.
  unfold BookForm_clean in H.
  apply bind_Some in H as (title & Ht & H).
  apply bind_Some in H as (author & _ & H).
  apply bind_Some in H as (isbn & Hi & H).
  apply bind_Some in H as (year & Hy & H).
  apply bind_Some in H as (descr & _ & H).
  apply bind_Some in H as (cover & _ & H).
  case_decide as Hex; [done|]. simplify_eq.
  apply CharField_clean_Some in Ht as (Ht & Htn & Htl & Ht0).
  apply CharField_clean_Some in Hi as (Hi & Hin & Hil & Hi0).
  apply IntegerField_clean_Some in Hy.
  unfold book_fields_ok. simpl. split_and!; eauto.
  intros k b' Hb' Heq. apply Hex. by exists k, b'.
Qed.

(** What [AddBookView] does, case by case. *)
Lemma AddBookView_cases (db : DB) (request : HttpRequest) :
  AddBookView request db = (RedirectLogin, db) ∨
  AddBookView request db = (Render "core/book_form.html" (), db) ∨
  ∃ b, BookForm_clean db request = Some b ∧ method request = POST ∧
       is_Some (request_user db request) ∧
       AddBookView request db = (Redirect "book-list" None, Book_save db b).
Proof.
  unfold AddBookView.
  destruct (request_user db request) eqn:Hu; [|by left].
  destruct (method request) eqn:Hm; [by right; left|].
  destruct (BookForm_clean db request) as [b|] eqn:Hf; [|by right; left].
  right; right. by exists b.
Qed.

Lemma tbl_book_add_to_reading_list (db : DB) request book_id :
  tbl_book (add_to_reading_list request book_id db).2 = tbl_book db.
Proof.
  unfold add_to_reading_list, ReadingList_save.
  repeat case_match; by simplify_eq.
Qed.

Lemma tbl_book_add_review (db : DB) request book_id :
  tbl_book (add_review request book_id db).2 = tbl_book db.
Proof.
  unfold add_review, Review_save. repeat case_match; by simplify_eq.
Qed.

Lemma tbl_book_AddAuthorView (db : DB) request :
  tbl_book (AddAuthorView request db).2 = tbl_book db.
Proof. unfold AddAuthorView. by repeat case_match. Qed.

Lemma tbl_book_CreateReadingListView (db : DB) request :
  tbl_book (CreateReadingListView request db).2 = tbl_book db.
Proof. unfold CreateReadingListView. by repeat case_match. Qed.

(** A book row after one operation was there before, or [AddBookView] has
    just stored it from a valid form. *)
Lemma step_books (db db' : DB) (k : Z) (b : Book) :
  step db db' → tbl_book db' !! k = Some b →
  tbl_book db !! k = Some b ∨
  (k = fresh_pk (seq_of db "Book") (tbl_book db) ∧ book_fields_ok b ∧
   ∀ k' b', tbl_book db !! k' = Some b' → book_isbn b' ≠ book_isbn b).
Proof.
  destruct 1 as [| |request db| | | | | | | |].
  - rewrite tbl_book_add_review. auto.
  - rewrite tbl_book_add_to_reading_list. auto.
  - destruct (AddBookView_cases db request)
      as [-> | [-> | (b0 & Hf & _ & _ & ->)]]; simpl; auto.
    rewrite lookup_insert_Some. intros [[<- <-]|[_ Hb]]; [right|by left].
    apply BookForm_clean_Some in Hf as (Hok & _ & _ & Hnew & _). by split.
  - rewrite tbl_book_AddAuthorView. auto.
  - rewrite tbl_book_CreateReadingListView. auto.
  - auto.
  - simpl. rewrite map_lookup_filter_Some. intros [Hb _]. auto.
  - simpl. rewrite map_lookup_filter_Some. intros [Hb _]. auto.
  - auto.
  - auto.
  - auto.
Qed.

(** X19: in every store the operations build, no two books have the same
    ISBN, and every book has a title of 1 to 200 characters, an ISBN of 1
    to 13 characters, neither with a null character, and a publication
    year that the integer column of the store can hold. *)
Theorem reachable_books_valid (db : DB) :
  reachable db →
  isbn_unique db ∧ ∀ k b, tbl_book db !! k = Some b → book_fields_ok b.
Proof.
  unfold reachable. revert db. apply rtc_ind_r.
  - split; intros ? *; simpl; by rewrite lookup_empty.
  - intros db1 db2 _ Hst [Hun Hok]. split.
    + intros k1 k2 b1 b2 H1 H2 Hi.
      destruct (step_books _ _ _ _ Hst H1) as [H1'|(-> & _ & Hn1)];
        destruct (step_books _ _ _ _ Hst H2) as [H2'|(-> & _ & Hn2)].
      * by eapply Hun.
      * by destruct (Hn2 _ _ H1').
      * by destruct (Hn1 _ _ H2').
      * done.
    + intros k b Hb. destruct (step_books _ _ _ _ Hst Hb) as [Hold|(_ & Hnew & _)];
        eauto.
Qed.

Lemma reachable_books_valid_witness :
  ∃ b, tbl_book sample_db !! 1 = Some b ∧ book_fields_ok b.
Proof.
  assert (Hb : ∃ b, tbl_book sample_db !! 1 = Some b)
    by (vm_compute; eexists; reflexivity).
  destruct Hb as [b Hb]. exists b. split; [exact Hb|].
  destruct (reachable_books_valid sample_db reachable_sample_db) as [_ Hok].
  exact (Hok 1 b Hb).
Defined.

(** X20: a book form whose ISBN field, an ASCII text, is after stripping
    the ISBN of a stored book is shown again and nothing is stored (a
    validation error, where a duplicate review is an [IntegrityError]). *)
Theorem AddBookView_duplicate_isbn (db : DB) (request : HttpRequest) (k : Z) (b : Book) :
  is_Some (request_user db request) →
  tbl_book db !! k = Some b →
  ascii_only (default EmptyString (QueryDict_get (POST_data request) "isbn")) →
  book_isbn b = strip (default EmptyString
                         (QueryDict_get (POST_data request) "isbn")) →
  AddBookView request db = (Render "core/book_form.html" (), db).
Proof.
  intros Hu Hb _ Hi.
  destruct (AddBookView_cases db request)
    as [H | [H | (b0 & Hf & _ & _ & _)]]; [|done|].
  - unfold AddBookView in H. destruct Hu as [u Hu]. rewrite Hu in H.
    by repeat case_match.
  - apply BookForm_clean_Some in Hf as (_ & _ & Hi0 & Hnew & _).
    destruct (Hnew _ _ Hb). by rewrite Hi, Hi0.
Qed.

Lemma AddBookView_duplicate_isbn_witness :
  AddBookView (post_as 2 (book_data "Other title" " 1111111111111 ") 47) sample_db
  = (Render "core/book_form.html" (), sample_db).
Proof.
  assert (Hb : ∃ b, tbl_book sample_db !! 1 = Some b ∧
                    book_isbn b = "1111111111111"%string)
    by (vm_compute; eexists; split; reflexivity).
  destruct Hb as (b & Hb & Hi).
  apply (AddBookView_duplicate_isbn sample_db _ 1 b).
  - vm_compute. eexists. reflexivity.
  - exact Hb.
  - vm_compute. repeat constructor; lia.
  - rewrite Hi. vm_compute. reflexivity.
Defined.

(** X21: when [AddBookView] stores a book, the request is a POST of a
    logged-in user; the book gets a key that no book had, its fields are
    valid, its author is an author of the store, no stored book has its
    ISBN, [created_at] is the first reading of the clock and [updated_at]
    the second, and every other row stays. *)
Theorem AddBookView_stores (db db' : DB) (request : HttpRequest) :
  AddBookView request db = (Redirect "book-list" None, db') →
  ∃ pk b,
    method request = POST ∧ is_Some (request_user db request) ∧
    tbl_book db !! pk = None ∧
    tbl_book db' = <[pk := b]> (tbl_book db) ∧
    tbl_user db' = tbl_user db ∧ tbl_author db' = tbl_author db ∧
    tbl_review db' = tbl_review db ∧
    tbl_reading_list db' = tbl_reading_list db ∧
    book_fields_ok b ∧ is_Some (tbl_author db !! book_author b) ∧
    (∀ k b', tbl_book db !! k = Some b' → book_isbn b' ≠ book_isbn b) ∧
    book_created_at b = now request ∧ book_updated_at b = now_again request.
Proof.
  intros H.
  destruct (AddBookView_cases db request)
    as [H' | [H' | (b & Hf & Hm & Hu & H')]]; rewrite H' in H; try done.
  simplify_eq. exists (fresh_pk (seq_of db "Book") (tbl_book db)), b.
  apply BookForm_clean_Some in Hf as (Hok & Ha & Hi & Hnew & Hc & Hup).
  split_and!; try done. apply fresh_pk_None.
Qed.

Lemma AddBookView_stores_witness :
  ∃ pk b,
    tbl_book sample_db !! pk = None ∧
    tbl_book
      (AddBookView (post_as 2 (book_data "Title W" "4444444444444") 48)
         sample_db).2 !! pk = Some b ∧
    book_created_at b = 48 ∧ book_updated_at b = 49.
Proof.
  destruct (AddBookView_stores sample_db
              (AddBookView (post_as 2 (book_data "Title W" "4444444444444") 48)
                 sample_db).2
              (post_as 2 (book_data "Title W" "4444444444444") 48))
    as (pk & b & _ & _ & Hno & Hdb & _ & _ & _ & _ & _ & _ & _ & Hc & Hup).
  - vm_compute. reflexivity.
  - exists pk, b. split; [exact Hno|]. split; [|split; [exact Hc|exact Hup]].
    rewrite Hdb. apply lookup_insert_eq.
Defined.

(** ** Cover paths and names *)

Lemma split_on_app_tail (sep : ascii) (s t : string) :
  ∃ pre, split_on sep (s +:+ String sep t) = pre ++ split_on sep t ∧ pre ≠ [].
Proof.
  induction s as [|c s (pre & IH & Hne)]; simpl.
  - exists [EmptyString]. by rewrite decide_True.
  - case_decide.
    + exists (EmptyString :: pre). by rewrite IH.
    + rewrite IH. destruct pre as [|p pre]; [done|].
      by exists (String c p :: pre).
Qed.

Lemma last_split_on_app (sep : ascii) (s t : string) :
  Forall (λ c, c ≠ sep) (chars t) →
  last (split_on sep (s +:+ String sep t)) = Some t.
Proof.
  intros Ht. destruct (split_on_app_tail sep s t) as (pre & -> & _).
  rewrite (split_on_no_sep sep t Ht). by rewrite last_snoc.
Qed.

(** X22: [book_cover_path] keeps nothing of the uploaded name but what
    follows its last dot: for a name [base.ext] the result is
    [book_covers/book_<id>_cover.ext]; a name without a dot is taken as the
    extension whole. *)
Theorem book_cover_path_extension (instance_id : option Z) (base ext : string) :
  Forall (λ c, c ≠ "."%char) (chars ext) →
  let id := match instance_id with Some i => pretty i | None => "None"%string end in
  book_cover_path instance_id (base +:+ "." +:+ ext)
    = "book_covers/book_" +:+ id +:+ "_cover." +:+ ext ∧
  book_cover_path instance_id ext
    = "book_covers/book_" +:+ id +:+ "_cover." +:+ ext.
Proof.
  intros He id. unfold book_cover_path. split.
  - change ("." +:+ ext) with (String "." ext).
    by rewrite last_split_on_app.
  - by rewrite split_on_no_sep.
Qed.

Lemma book_cover_path_extension_witness :
  book_cover_path (Some 7) "holiday.photo.JPG" = "book_covers/book_7_cover.JPG"%string.
Proof.
  apply (book_cover_path_extension (Some 7) "holiday.photo" "JPG").
  repeat constructor; discriminate.
Defined.

(** X23: in every store the operations build, [str(book)] never fails for
    a stored book: its author row is there, and the text is the title,
    [by], and the author's name. *)
Theorem Book_str_defined (db : DB) (k : Z) (b : Book) :
  reachable db → tbl_book db !! k = Some b →
  ∃ a, tbl_author db !! book_author b = Some a ∧
       Book_str db b = Some (book_title b +:+ " by " +:+ Author_str a).
Proof.
  intros Hre Hb. destruct (reachable_fk_ok db Hre) as [Hba _ _ _ _].
  destruct (Hba k b Hb) as [a Ha]. exists a. split; [done|].
  unfold Book_str. by rewrite Ha.
Qed.

Lemma Book_str_defined_witness :
  ∃ b a, tbl_book sample_db !! 1 = Some b ∧
         Book_str sample_db b = Some (book_title b +:+ " by " +:+ Author_str a).
Proof.
  assert (Hb : ∃ b, tbl_book sample_db !! 1 = Some b)
    by (vm_compute; eexists; reflexivity).
  destruct Hb as (b & Hb).
  destruct (Book_str_defined sample_db 1 b reachable_sample_db Hb) as (a & _ & Hs).
  exists b, a. split; [exact Hb|exact Hs].
Defined.

(** ** Who may write *)

(** X24: without a logged-in user, every view under [login_required] or
    [LoginRequiredMixin] answers with the redirect to the login page and
    leaves the store as it is. *)
Theorem anonymous_redirected (db : DB) (request : HttpRequest) (pk : Z) :
  request_user db request = None →
  add_review request pk db = (RedirectLogin, db) ∧
  add_to_reading_list request pk db = (RedirectLogin, db) ∧
  AddBookView request db = (RedirectLogin, db) ∧
  AddAuthorView request db = (RedirectLogin, db) ∧
  CreateReadingListView request db = (RedirectLogin, db) ∧
  ReadingListView request db = RedirectLogin ∧
  ReadingListDetailView request pk db = RedirectLogin.
Proof.
  intros Hu.
  unfold add_review, add_to_reading_list, AddBookView, AddAuthorView,
    CreateReadingListView, ReadingListView, ReadingListDetailView.
  by rewrite Hu.
Qed.

Lemma anonymous_redirected_witness :
  add_review (mkRequest POST None ∅
                (query [("rating", "5"); ("review_text", "Read it.")]%string) ∅ 50 51)
    1 sample_db = (RedirectLogin, sample_db).
Proof.
  destruct (anonymous_redirected sample_db
    (mkRequest POST None ∅
       (query [("rating", "5"); ("review_text", "Read it.")]%string) ∅ 50 51) 1)
    as [H _]; [reflexivity|exact H].
Defined.

(** X25: a view changes the store only on a POST of a logged-in user. *)
Theorem writes_need_login_and_post (db : DB) (request : HttpRequest) (pk : Z) :
  let changed (r : HttpResponse unit * DB) := r.2 ≠ db in
  changed (add_review request pk db) ∨
  changed (add_to_reading_list request pk db) ∨
  changed (AddBookView request db) ∨
  changed (AddAuthorView request db) ∨
  changed (CreateReadingListView request db) →
  method request = POST ∧ is_Some (request_user db request).
Proof.
  unfold add_review, add_to_reading_list, AddBookView, AddAuthorView,
    CreateReadingListView. simpl.
  destruct (request_user db request) as [user|].
  2: { intros [H|[H|[H|[H|H]]]]; by destruct H. }
  destruct (method request); [|by eauto].
  destruct (tbl_book db !! pk); intros [H|[H|[H|[H|H]]]]; by destruct H.
Qed.

Lemma writes_need_login_and_post_witness :
  method (review_as 3 26 "1") = POST ∧
  is_Some (request_user sample_db (review_as 3 26 "1")).
Proof.
  apply (writes_need_login_and_post sample_db (review_as 3 26 "1") 1).
  left. intros He. apply (f_equal (λ d, size (tbl_review d))) in He.
  vm_compute in He. discriminate He.
Defined.

(** ** More on deletion *)

Lemma rl_remove_books_id (gone : gset Z) (l : ReadingList) :
  rl_books l ## gone → rl_remove_books gone l = l.
Proof.
  intros Hd. destruct l as [n u bs d p c]. unfold rl_remove_books. simpl in *.
  f_equal. by apply difference_disjoint_L.
Qed.

Lemma reviews_delete_books (db : DB) (gone : gset Z) (b : Z) :
  reviews (delete_books db gone) b = if decide (b ∈ gone) then ∅ else reviews db b.
Proof.
  unfold reviews. simpl. rewrite map_filter_filter. case_decide as Hb.
  - apply map_empty. intros k. apply map_lookup_filter_None. right.
    intros r _ [H1 H2]. simpl in *. by subst.
  - apply map_filter_ext. intros k r _. simpl. split; [tauto|].
    intros <-. tauto.
Qed.

(** X26: deleting a book removes that row, its reviews and its place in
    every reading list, and nothing else: users, authors, the other books
    and their reviews stay, every reading list stays with its other books;
    afterwards [review_count] and [average_rating] of the key are 0. *)
Theorem Book_delete_only (db : DB) (pk : Z) :
  let db' := Book_delete db pk in
  tbl_user db' = tbl_user db ∧ tbl_author db' = tbl_author db ∧
  tbl_book db' = delete pk (tbl_book db) ∧
  (∀ b, b ≠ pk → reviews db' b = reviews db b) ∧
  (∀ k r, tbl_review db' !! k = Some r ↔
          tbl_review db !! k = Some r ∧ review_book r ≠ pk) ∧
  review_count db' pk = 0%nat ∧ (average_rating db' pk == 0)%Q ∧
  (∀ k, tbl_reading_list db' !! k
        = rl_remove_books {[pk]} <$> tbl_reading_list db !! k).
Proof.
  unfold Book_delete. split_and!; try done.
  - simpl. apply map_eq. intros k. apply option_eq. intros b.
    rewrite map_lookup_filter_Some, lookup_delete_Some. simpl.
    rewrite not_elem_of_singleton. split; intros [? ?]; split; congruence.
  - intros b Hne. rewrite reviews_delete_books. rewrite decide_False; [done|].
    by rewrite not_elem_of_singleton.
  - intros k r. simpl. rewrite map_lookup_filter_Some. simpl.
    rewrite elem_of_singleton. tauto.
  - unfold review_count. rewrite reviews_delete_books.
    by rewrite decide_True by (by apply elem_of_singleton).
  - unfold average_rating. rewrite reviews_delete_books.
    by rewrite decide_True by (by apply elem_of_singleton).
  - intros k. simpl. by rewrite lookup_fmap.
Qed.

(** X27: deleting an author removes the author, exactly the books of
    that author and exactly the reviews of those books. *)
Theorem Author_delete_exactly (db : DB) (pk : Z) :
  fk_ok db →
  let db' := Author_delete db pk in
  tbl_user db' = tbl_user db ∧ tbl_author db' = delete pk (tbl_author db) ∧
  (∀ k b, tbl_book db' !! k = Some b ↔
          tbl_book db !! k = Some b ∧ book_author b ≠ pk) ∧
  (∀ k r, tbl_review db' !! k = Some r ↔
          tbl_review db !! k = Some r ∧
          ∃ b, tbl_book db !! review_book r = Some b ∧ book_author b ≠ pk).
Proof.
  intros [Hba Hrb _ _ _]. unfold Author_delete. simpl. split_and!; try done.
  - intros k b. rewrite map_lookup_filter_Some. simpl.
    rewrite elem_of_dom. split.
    + intros [Hb Hn]. split; [done|]. intros Ha. apply Hn. exists b.
      by apply map_lookup_filter_Some.
    + intros [Hb Hn]. split; [done|]. intros [b' Hb'].
      apply map_lookup_filter_Some in Hb' as [Hb' Ha]. simpl in Ha.
      by simplify_eq.
  - intros k r. rewrite map_lookup_filter_Some. simpl.
    rewrite elem_of_dom. split.
    + intros [Hr Hn]. split; [done|]. destruct (Hrb _ _ Hr) as [b Hb].
      exists b. split; [done|]. intros Ha. apply Hn. exists b.
      by apply map_lookup_filter_Some.
    + intros (Hr & b & Hb & Hn). split; [done|]. intros [b' Hb'].
      apply map_lookup_filter_Some in Hb' as [Hb' Ha]. simpl in Ha.
      by simplify_eq.
Qed.

Lemma Author_delete_exactly_witness :
  ∃ b, tbl_book sample_db !! 2 = Some b ∧
       (tbl_book (Author_delete sample_db 1) !! 2 = Some b ↔
        tbl_book sample_db !! 2 = Some b ∧ book_author b ≠ 1).
Proof.
  assert (Hb : ∃ b, tbl_book sample_db !! 2 = Some b)
    by (vm_compute; eexists; reflexivity).
  destruct Hb as [b Hb]. exists b. split; [exact Hb|].
  destruct (Author_delete_exactly sample_db 1) as (_ & _ & Hbooks & _).
  - apply reachable_fk_ok, reachable_sample_db.
  - exact (Hbooks 2 b).
Defined.

(** X28: in a store with valid foreign keys, deleting by a key that no
    row has changes nothing: no book, no author, no user, no review and no
    reading list of that key. *)
Theorem delete_missing_key (db : DB) (pk : Z) :
  fk_ok db →
  (tbl_book db !! pk = None → Book_delete db pk = db) ∧
  (tbl_author db !! pk = None → Author_delete db pk = db) ∧
  (pk ∉ tbl_user db → User_delete db pk = db) ∧
  (tbl_review db !! pk = None → Review_delete db pk = db) ∧
  (tbl_reading_list db !! pk = None → ReadingList_delete db pk = db).
Proof.
  intros [Hba Hrb Hru Hlu Hlb].
  assert (Hgone : ∀ gone : gset Z, (∀ k, k ∈ gone → tbl_book db !! k = None) →
            delete_books db gone = db).
  { intros gone Hg. unfold delete_books. destruct db as [us au bo re li sq].
    simpl in *. f_equal.
    - apply map_filter_id. intros k b Hb Hin. simpl in Hin.
      by rewrite (Hg k Hin) in Hb.
    - apply map_filter_id. intros k r Hr Hin. simpl in Hin.
      destruct (Hrb _ _ Hr) as [b Hb]. by rewrite (Hg _ Hin) in Hb.
    - rewrite <- (map_fmap_id li) at 2. apply map_fmap_ext.
      intros k l Hl. apply rl_remove_books_id. intros b Hb Hin.
      destruct (Hlb _ _ _ Hl Hb) as [x Hx]. by rewrite (Hg _ Hin) in Hx. }
  split_and!.
  - intros Hn. apply Hgone. intros k Hk. by apply elem_of_singleton in Hk as ->.
  - intros Hn. unfold Author_delete. rewrite Hgone.
    + destruct db as [us au bo re li sq]. simpl in *. f_equal. by apply delete_id.
    + intros k Hk. apply elem_of_dom in Hk as [b Hb].
      apply map_lookup_filter_Some in Hb as [Hb Ha]. simpl in Ha.
      destruct (Hba _ _ Hb) as [a Hau]. by rewrite Ha, Hn in Hau.
  - intros Hn. unfold User_delete. destruct db as [us au bo re li sq].
    simpl in *. f_equal.
    + by apply difference_disjoint_L, disjoint_singleton_r.
    + apply map_filter_id. intros k r Hr Heq. simpl in Heq.
      apply Hn. rewrite <- Heq. by eapply Hru.
    + apply map_filter_id. intros k l Hl Heq. simpl in Heq.
      apply Hn. rewrite <- Heq. by eapply Hlu.
  - intros Hn. unfold Review_delete. destruct db as [us au bo re li sq].
    simpl in *. f_equal. by apply delete_id.
  - intros Hn. unfold ReadingList_delete. destruct db as [us au bo re li sq].
    simpl in *. f_equal. by apply delete_id.
Qed.

Lemma delete_missing_key_witness :
  Book_delete sample_db 9 = sample_db ∧ User_delete sample_db 9 = sample_db.
Proof.
  destruct (delete_missing_key sample_db 9) as (Hb & _ & Hu & _).
  - apply reachable_fk_ok, reachable_sample_db.
  - split.
    + apply Hb. vm_compute. reflexivity.
    + apply Hu. intros Hin. apply elem_of_elements in Hin.
      vm_compute in Hin. repeat (apply elem_of_cons in Hin as [Hin|Hin]; [discriminate|]).
      by apply elem_of_nil in Hin.
Defined.

(** ** Views only add *)

Lemma rows_kept_refl (db : DB) : rows_kept db db.
Proof. split_and!; try done. intros k l Hl. exists l. by split_and!. Qed.

Lemma lists_kept_insert (seq : Z) (t : gmap Z ReadingList) (l0 : ReadingList) :
  ∀ k l, t !! k = Some l →
    ∃ l', <[fresh_pk seq t := l0]> t !! k = Some l' ∧
          rl_name l' = rl_name l ∧ rl_user l' = rl_user l ∧
          rl_description l' = rl_description l ∧
          rl_is_public l' = rl_is_public l ∧
          rl_created_at l' = rl_created_at l ∧ rl_books l ⊆ rl_books l'.
Proof.
  intros k l Hl. exists l. split_and!; try done.
  rewrite lookup_insert_ne; [done|]. intros <-.
  by rewrite fresh_pk_None in Hl.
Qed.

Lemma lists_kept_alter (t : gmap Z ReadingList) (pk book : Z) :
  ∀ k l, t !! k = Some l →
    ∃ l', alter (rl_add_book book) pk t !! k = Some l' ∧
          rl_name l' = rl_name l ∧ rl_user l' = rl_user l ∧
          rl_description l' = rl_description l ∧
          rl_is_public l' = rl_is_public l ∧
          rl_created_at l' = rl_created_at l ∧ rl_books l ⊆ rl_books l'.
Proof.
  intros k l Hl. destruct (decide (pk = k)) as [->|Hne].
  - exists (rl_add_book book l). rewrite lookup_alter_eq, Hl. simpl.
    split_and!; try done. apply union_subseteq_r.
  - exists l. by rewrite lookup_alter_ne.
Qed.

Lemma size_alter {A} (f : A → A) (k : Z) (m : gmap Z A) :
  size (alter f k m) = size m.
Proof. by rewrite <- (size_dom (D:=gset Z)), dom_alter_L, size_dom. Qed.

Lemma size_insert_fresh {A} (seq : Z) (m : gmap Z A) (x : A) :
  size (<[fresh_pk seq m := x]> m) = S (size m).
Proof. apply map_size_insert_None, fresh_pk_None. Qed.

Lemma kept_plus_one_refl (db : DB) : kept_plus_one db db.
Proof. split; [apply rows_kept_refl|lia]. Qed.

(** X29: no view removes or alters a user, an author, a book or a
    review, and no view removes a reading list or changes its name, owner,
    description, flag or date: a view adds one row at most, and may add a
    book to a list. *)
Theorem views_keep_rows (db : DB) (request : HttpRequest) (pk : Z) :
  kept_plus_one db (add_review request pk db).2 ∧
  kept_plus_one db (add_to_reading_list request pk db).2 ∧
  kept_plus_one db (AddBookView request db).2 ∧
  kept_plus_one db (AddAuthorView request db).2 ∧
  kept_plus_one db (CreateReadingListView request db).2.
Proof.
  split_and!.
  - destruct (add_review_cases db request pk)
      as [->|[->|[->|(u & rating & text & _ & _ & _ & _ & [[_ ->]|[_ ->]])]]];
      try apply kept_plus_one_refl.
    destruct (rows_kept_refl db) as (? & ? & ? & ? & ?). split.
    + split_and!; try done. simpl. apply insert_subseteq, fresh_pk_None.
    + unfold row_count. simpl. rewrite size_insert_fresh. lia.
  - unfold add_to_reading_list.
    destruct (request_user db request) as [user|]; [|apply kept_plus_one_refl].
    destruct (tbl_book db !! pk); [|apply kept_plus_one_refl].
    destruct (method request); [apply kept_plus_one_refl|].
    destruct (truthy (QueryDict_get _ "reading_list")) as [id|].
    + destruct (py_int id) as [k|]; [|apply kept_plus_one_refl].
      destruct (get_ReadingList _ _ _); [|apply kept_plus_one_refl]. split.
      * split_and!; try done. apply lists_kept_alter.
      * unfold row_count. simpl. rewrite size_alter. lia.
    + destruct (truthy _) as [name|]; [|apply kept_plus_one_refl]. split.
      * split_and!; try done. simpl. intros k l Hl.
        destruct (lists_kept_insert (seq_of db "ReadingList") (tbl_reading_list db)
          (mkReadingList name user ∅ EmptyString true (now request)) k l Hl)
          as (l1 & Hl1 & ? & ? & ? & ? & ? & ?).
        destruct (lists_kept_alter _
          (fresh_pk (seq_of db "ReadingList") (tbl_reading_list db)) pk k l1 Hl1)
          as (l2 & Hl2 & ? & ? & ? & ? & ? & ?).
        exists l2. split_and!; try congruence. by etrans.
      * unfold row_count. simpl. rewrite size_alter, size_insert_fresh. lia.
  - destruct (AddBookView_cases db request)
      as [-> | [-> | (b & _ & _ & _ & ->)]]; try apply kept_plus_one_refl.
    destruct (rows_kept_refl db) as (? & ? & ? & ? & ?). split.
    + split_and!; try done. simpl. apply insert_subseteq, fresh_pk_None.
    + unfold row_count. simpl. rewrite size_insert_fresh. lia.
  - unfold AddAuthorView.
    destruct (request_user db request); [|apply kept_plus_one_refl].
    destruct (method request); [apply kept_plus_one_refl|].
    destruct (AuthorForm_clean _); [|apply kept_plus_one_refl].
    destruct (rows_kept_refl db) as (? & ? & ? & ? & ?). split.
    + split_and!; try done. simpl. apply insert_subseteq, fresh_pk_None.
    + unfold row_count. simpl. rewrite size_insert_fresh. lia.
  - unfold CreateReadingListView.
    destruct (request_user db request); [|apply kept_plus_one_refl].
    destruct (method request); [apply kept_plus_one_refl|].
    destruct (ReadingListForm_clean _ _ _); [|apply kept_plus_one_refl]. split.
    + split_and!; try done. apply lists_kept_insert.
    + unfold row_count. simpl. rewrite size_insert_fresh. lia.
Qed.

(** ** Authors *)

Lemma tbl_author_unchanged (db : DB) request pk :
  tbl_author (add_review request pk db).2 = tbl_author db ∧
  tbl_author (add_to_reading_list request pk db).2 = tbl_author db ∧
  tbl_author (AddBookView request db).2 = tbl_author db ∧
  tbl_author (CreateReadingListView request db).2 = tbl_author db.
Proof.
  unfold add_review, Review_save, add_to_reading_list, ReadingList_save,
    AddBookView, CreateReadingListView.
  split_and!; repeat case_match; by simplify_eq.
Qed.

(** X30: in every store the operations build, every author has a name of
    1 to 200 characters. *)
Theorem reachable_authors_valid (db : DB) :
  reachable db → ∀ k a, tbl_author db !! k = Some a → author_fields_ok a.
Proof.
  unfold reachable. revert db.
  apply (rtc_ind_r (λ db, ∀ k a, tbl_author db !! k = Some a → author_fields_ok a)).
  - intros k a. simpl. by rewrite lookup_empty.
  - intros db1 db2 _ Hst IH k a.
    destruct Hst as [request pk db|request pk db|request db|request db
                    |request db| | | | | |].
    + destruct (tbl_author_unchanged db request pk) as (-> & _). apply IH.
    + destruct (tbl_author_unchanged db request pk) as (_ & -> & _). apply IH.
    + destruct (tbl_author_unchanged db request 0) as (_ & _ & -> & _). apply IH.
    + unfold AddAuthorView.
      destruct (request_user db request); [|apply IH].
      destruct (method request); [apply IH|].
      destruct (AuthorForm_clean _) as [a0|] eqn:Hf; [|apply IH]. simpl.
      rewrite lookup_insert_Some. intros [[_ <-]|[_ Ha]]; [|by eapply IH].
      unfold AuthorForm_clean in Hf.
      apply bind_Some in Hf as (name & Hn & Hf).
      apply bind_Some in Hf as (bio & _ & Hf).
      apply bind_Some in Hf as (bd & _ & Hf). simplify_eq.
      apply CharField_clean_Some in Hn as (_ & Hne & Hlen).
      split; simpl; [by apply Hne|by apply Hlen].
    + destruct (tbl_author_unchanged db request 0) as (_ & _ & _ & ->). apply IH.
    + apply IH.
    + simpl. rewrite lookup_delete_Some. intros [_ Ha]. by eapply IH.
    + apply IH.
    + apply IH.
    + apply IH.
    + apply IH.
Qed.

Lemma reachable_authors_valid_witness :
  ∃ a, tbl_author sample_db !! 1 = Some a ∧ author_fields_ok a.
Proof.
  assert (Ha : ∃ a, tbl_author sample_db !! 1 = Some a)
    by (vm_compute; eexists; reflexivity).
  destruct Ha as [a Ha]. exists a. split; [exact Ha|].
  exact (reachable_authors_valid sample_db reachable_sample_db 1 a Ha).
Defined.

(** ** Edge cases of the store and the framework, on the sample *)

(** The separators U+001C to U+001F are blanks for [str.strip] and not
    for [int]: a list key with one of them is a [ValueError]. *)
Example separator_in_list_key :
  let fs := String (ascii_of_nat 28) EmptyString in
  strip (fs +:+ "1") = "1"%string ∧
  add_to_reading_list (post_as 1 [("reading_list", fs +:+ "1")]%string 60) 1 sample_db
    = (ServerError ValueError, sample_db).
Proof. vm_compute. split; reflexivity. Qed.

(** A key is not given out again: with the newest reading list deleted,
    the next list gets the key after it. *)
Example key_after_deletion :
  let db := ReadingList_delete sample_db 2 in
  let db' := (add_to_reading_list
                (post_as 3 [("new_list_name", "Later")]%string 61) 2 db).2 in
  (map_to_list (tbl_reading_list db)).*1 = [1] ∧
  (rows (tbl_reading_list db')).*1 = [1; 3].
Proof. vm_compute. split; reflexivity. Qed.

(** A review text with a null character is a validation error: the form
    is shown again, also for a user who has reviewed the book. *)
Example null_character_in_review :
  let text := String (ascii_of_nat 0) "Read it." in
  add_review (post_as 1 [("rating", "3"); ("review_text", text)]%string 62)
    1 sample_db
  = (Render "core/add_review.html" (), sample_db).
Proof. vm_compute. reflexivity. Qed.

(** Book 3 rated 3, 3 and 4: the mean 10/3 is below the float nearest to
    it, and [highly_rated] of that float returns the book. The result is
    in the order of the keys. *)
Example highly_rated_nearest_float :
  let db := (add_review (review_as 1 63 "3") 3 sample_db).2 in
  let db := (add_review (review_as 2 64 "3") 3 db).2 in
  let db := (add_review (review_as 3 65 "4") 3 db).2 in
  let m := (7505999378950827 # 2251799813685248)%Q in
  ratings (reviews db 3) ≡ₚ [3; 3; 4] ∧
  (mean (ratings (reviews db 3)) < m)%Q ∧ (py_float (10 # 3) == m)%Q ∧
  (highly_rated db m).*1.*1 = [1; 2; 3] ∧
  (highly_rated db 0).*1.*1 = [1; 2; 3].
Proof.
  vm_compute. split_and!; try reflexivity.
Qed.

(** [BookForm] on the year and the cover: a trailing [.0] is taken, a year
    beyond the integers of the store and a file that is no image are
    refused. *)
Example BookForm_year_and_cover :
  let data year := [("title", "T"); ("author", "1"); ("isbn", "9");
                    ("publication_year", year)]%string in
  let upload name ok :=
    mkRequest POST (Some 1) ∅ (query (data "2020"))
      {[ "cover_image"%string := mkUploadedFile name ok ]} 66 67 in
  book_publication_year <$> BookForm_clean sample_db (post_as 1 (data "2020.0") 66)
    = Some 2020 ∧
  BookForm_clean sample_db (post_as 1 (data "9223372036854775808") 66) = None ∧
  BookForm_clean sample_db (upload "notes.txt" false) = None ∧
  (BookForm_clean sample_db (upload "front.png" true) ≫= book_cover_image)
    = Some "book_covers/book_None_cover.png"%string.
Proof. vm_compute. split_and!; reflexivity. Qed.

(** The two dates of a new row are two readings of the clock. *)
Example two_clock_readings :
  tbl_book sample_db !! 1 ≫= (λ b, Some (book_created_at b, book_updated_at b))
    = Some (11, 12) ∧
  tbl_review sample_db !! 1 ≫= (λ r, Some (review_created_at r, review_updated_at r))
    = Some (20, 21).
Proof. vm_compute. split; reflexivity. Qed.
